(** * A shallow embedding of the bq27xxx driver (lib.rs, memory.rs, known_chips.rs)

    The driver is async Rust over an injected I2C transport and a delay
    provider.  Both are modelled as a [Bus]: a chip state [St] that the
    transport and the delay act on, with transport errors of type [E].
    Driver functions are computations in a state-and-error monad [M] over a
    [World]: the chip state plus the log of every bus transaction issued,
    with the transport's answer.  [Ok] / [Err] mirror Rust's [Result], and
    [Panic] stands for a [panic!].  Bytes ([u8]) and [u16] values are [Z]. *)

From Stdlib Require Import ZArith List String Bool Lia.
Import ListNotations.
Open Scope Z_scope.

(** ** Error type and bus *)

(** [ChipError<E>] of lib.rs. *)
Inductive ChipError (E : Type) : Type :=
| I2CError (e : E)
| PollTimeout
| Checksum.
Arguments I2CError {E} e.
Arguments PollTimeout {E}.
Arguments Checksum {E}.

(** One bus transaction, with the answer the transport gave. *)
Inductive event (E : Type) : Type :=
| EvWrite (addr : Z) (bytes : list Z) (r : option E)
| EvWriteRead (addr : Z) (bytes : list Z) (len : nat) (r : list Z + E)
| EvDelay (ms : Z).
Arguments EvWrite {E} addr bytes r.
Arguments EvWriteRead {E} addr bytes len r.
Arguments EvDelay {E} ms.

(** The transport ([i2c::I2c]: [write], [write_read]) and the delay
    provider ([delay_ms]).  [bus_write_read] answers with the contents of
    the response buffer of the requested length. *)
Record Bus (St E : Type) : Type := mkBus {
  bus_write : St -> Z -> list Z -> St * option E;
  bus_write_read : St -> Z -> list Z -> nat -> St * (list Z + E);
  bus_delay : St -> Z -> St
}.
Arguments mkBus {St E} _ _ _.
Arguments bus_write {St E} _ _ _ _.
Arguments bus_write_read {St E} _ _ _ _ _.
Arguments bus_delay {St E} _ _ _.

Record World (St E : Type) : Type := mkWorld {
  chip : St;
  log : list (event E)
}.
Arguments mkWorld {St E} _ _.
Arguments chip {St E} _.
Arguments log {St E} _.

Inductive outcome (E A : Type) : Type :=
| Ok (a : A)
| Err (e : ChipError E)
| Panic (msg : string).
Arguments Ok {E A} a.
Arguments Err {E A} e.
Arguments Panic {E A} msg.

Definition M (St E A : Type) : Type := World St E -> World St E * outcome E A.

Definition ret {St E A} (a : A) : M St E A := fun w => (w, Ok a).

Definition fail {St E A} (e : ChipError E) : M St E A := fun w => (w, Err e).

Definition panic {St E A} (msg : string) : M St E A := fun w => (w, Panic msg).

(** [m?] followed by the rest of the function: errors and panics end it. *)
Definition bind {St E A B} (m : M St E A) (k : A -> M St E B) : M St E B :=
  fun w =>
    let (w1, r) := m w in
    match r with
    | Ok a => k a w1
    | Err e => (w1, Err e)
    | Panic s => (w1, Panic s)
    end.

Notation "x <- m ;; k" := (bind m (fun x => k))
  (at level 61, m at next level, right associativity).
Notation "m ;; k" := (bind m (fun _ => k))
  (at level 61, right associativity).

(** ** Integers *)

(** [u16::from_le_bytes] of a 2-byte buffer. *)
Definition from_le_bytes (b : list Z) : Z := nth 0 b 0 + 256 * nth 1 b 0.

(** [u8::wrapping_add]. *)
Definition wrapping_add (a b : Z) : Z := (a + b) mod 256.

(** [subcommand as u8] and [(subcommand >> 8) as u8]. *)
Definition lo_byte (x : Z) : Z := Z.land x 255.
Definition hi_byte (x : Z) : Z := Z.land (Z.shiftr x 8) 255.

(** [block[i] = v] on a buffer. *)
Fixpoint set_nth (i : nat) (v : Z) (l : list Z) : list Z :=
  match i, l with
  | _, [] => []
  | O, _ :: t => v :: t
  | S i', h :: t => h :: set_nth i' v t
  end.

(** [BigEndian::read_u16] of a 2-byte slice. *)
Definition read_u16_be (buf : list Z) : Z := 256 * nth 0 buf 0 + nth 1 buf 0.

(** [BigEndian::write_u16(&mut block[i..i + 2], n)] for a [u16] [n]. *)
Definition write_u16_be_at (i : nat) (n : Z) (block : list Z) : list Z :=
  set_nth (S i) (lo_byte n) (set_nth i (hi_byte n) block).

(** [&block[a..b]] of a slice with [a <= b <= len]. *)
Definition slice (block : list Z) (a b : nat) : list Z := firstn (b - a) (skipn a block).

(** [raw as i16] for a [u16] [raw]. *)
Definition as_i16 (raw : Z) : Z := if raw <? 32768 then raw else raw - 65536.

(** ** Register map (registers.rs, memory.rs [def]) *)

Module commands.
Definition CONTROL : Z := 0x00.
Definition TEMPERATURE : Z := 0x02.
Definition VOLTAGE : Z := 0x04.
Definition FLAGS : Z := 0x06.
Definition AVERAGE_CURRENT : Z := 0x10.
Definition STATE_OF_CHARGE : Z := 0x1C.
Definition DATA_CLASS : Z := 0x3E.
Definition DATA_BLOCK : Z := 0x3F.
Definition BLOCK_DATA : Z := 0x40.
Definition BLOCK_DATA_CHECKSUM : Z := 0x60.
Definition BLOCK_DATA_CONTROL : Z := 0x61.
End commands.

Module memory_subclass.
Definition STATE : Z := 82.
Definition CC_CAL : Z := 105.
End memory_subclass.

Module control_subcommands.
Definition DEVICE_TYPE : Z := 0x0001.
Definition FW_VERSION : Z := 0x0002.
Definition CHEM_ID : Z := 0x0008.
Definition SET_CFGUPDATE : Z := 0x0013.
Definition CHEM_A : Z := 0x0030.
Definition CHEM_B : Z := 0x0031.
Definition CHEM_C : Z := 0x0032.
Definition RESET : Z := 0x0041.
Definition SOFT_RESET : Z := 0x0042.
End control_subcommands.

(** [StatusFlags]: the bits the bitflags type names. *)
Module StatusFlags.
Definition OT : Z := Z.shiftl 1 15.
Definition UT : Z := Z.shiftl 1 14.
Definition FC : Z := Z.shiftl 1 9.
Definition CHG : Z := Z.shiftl 1 8.
Definition OCVTAKEN : Z := Z.shiftl 1 7.
Definition DOD_CORRECT : Z := Z.shiftl 1 6.
Definition ITPOR : Z := Z.shiftl 1 5.
Definition CFGUPMODE : Z := Z.shiftl 1 4.
Definition BAT_DET : Z := Z.shiftl 1 3.
Definition SOC1 : Z := Z.shiftl 1 2.
Definition SOCF : Z := Z.shiftl 1 1.
Definition DSG : Z := Z.shiftl 1 0.
Definition all : Z :=
  fold_right Z.lor 0
    [OT; UT; FC; CHG; OCVTAKEN; DOD_CORRECT; ITPOR; CFGUPMODE; BAT_DET;
     SOC1; SOCF; DSG].
Definition from_bits_truncate (raw : Z) : Z := Z.land raw all.
Definition contains (flags mask : Z) : bool := Z.land flags mask =? mask.
End StatusFlags.

(** [ChemId] and [impl From<u16> for ChemId] (lib.rs). *)
Inductive ChemId := A4350 | B4200 | C4400 | ChemUnknown.

Definition ChemId_from (code : Z) : ChemId :=
  if code =? 0x3230 then A4350
  else if code =? 0x1202 then B4200
  else if code =? 0x3142 then C4400
  else ChemUnknown.

(** [ChipType] (known_chips.rs). *)
Inductive ChipType := BQ27421 | BQ27426 | BQ27427 | Unknown.

(** Modelled from the spec: [impl From<u16> for ChipType], used by
    [probe] but absent from the sources.  The spec: a device-type response
    of 0x0421 decodes to BQ27421, an unrecognised code decodes to Unknown.
    The codes of the other two known chips follow their names. *)
Definition ChipType_from (code : Z) : ChipType :=
  if code =? 0x0421 then BQ27421
  else if code =? 0x0426 then BQ27426
  else if code =? 0x0427 then BQ27427
  else Unknown.

Definition MEMBLOCK_SIZE : nat := 32.

(** ** Transport primitives, with the [?] conversion [E -> ChipError<E>] *)

Section Primitives.
Context {St E : Type} (bus : Bus St E) (addr : Z).

Definition i2c_write (bytes : list Z) : M St E unit :=
  fun w =>
    let (s', r) := bus_write bus (chip w) addr bytes in
    (mkWorld s' (log w ++ [EvWrite addr bytes r]),
     match r with None => Ok tt | Some e => Err (I2CError e) end).

Definition i2c_write_read (bytes : list Z) (len : nat) : M St E (list Z) :=
  fun w =>
    let (s', r) := bus_write_read bus (chip w) addr bytes len in
    (mkWorld s' (log w ++ [EvWriteRead addr bytes len r]),
     match r with inl resp => Ok resp | inr e => Err (I2CError e) end).

Definition delay_ms (ms : Z) : M St E unit :=
  fun w => (mkWorld (bus_delay bus (chip w) ms) (log w ++ [EvDelay ms]), Ok tt).

End Primitives.

(** ** lib.rs: [impl Bq27xx] *)

Module Lib.
Section Driver.
Context {St E : Type} (bus : Bus St E) (addr : Z).

Definition read_control (subcommand : Z) : M St E Z :=
  i2c_write bus addr [commands.CONTROL; lo_byte subcommand; hi_byte subcommand];;
  response <- i2c_write_read bus addr [commands.CONTROL] 2;;
  ret (from_le_bytes response).

Definition write_control (subcommand : Z) : M St E unit :=
  i2c_write bus addr [commands.CONTROL; lo_byte subcommand; hi_byte subcommand];;
  ret tt.

Definition read_command (command : Z) : M St E Z :=
  response <- i2c_write_read bus addr [command] 2;;
  ret (from_le_bytes response).

Definition write_command (command data : Z) : M St E unit :=
  i2c_write bus addr [command; data];;
  ret tt.

Definition get_flags : M St E Z :=
  raw <- read_command commands.FLAGS;;
  ret (StatusFlags.from_bits_truncate raw).

Definition FLAG_POLL_RETRIES : nat := 10.
Definition FLAG_POLL_DELAY_MS : Z := 500.

(** The body of [for _ in 0..FLAG_POLL_RETRIES], [n] iterations left. *)
Fixpoint wait_flags_loop (n : nat) (mask : Z) : M St E unit :=
  match n with
  | O => fail PollTimeout
  | S n' =>
      delay_ms bus FLAG_POLL_DELAY_MS;;
      flags <- get_flags;;
      if StatusFlags.contains flags mask then ret tt
      else wait_flags_loop n' mask
  end.

Definition wait_flags (mask : Z) : M St E unit :=
  wait_flags_loop FLAG_POLL_RETRIES mask.

Definition mode_cfgupdate : M St E unit :=
  write_control control_subcommands.SET_CFGUPDATE;;
  wait_flags StatusFlags.CFGUPMODE;;
  ret tt.

Definition calculate_block_checksum (block : list Z) : Z :=
  let csum := fold_left wrapping_add block 0 in
  255 - csum.

Definition read_checksum : M St E Z :=
  checksum <- i2c_write_read bus addr [commands.BLOCK_DATA_CHECKSUM] 1;;
  ret (nth 0 checksum 0).

Definition memblock_prepare_op (class block : Z) : M St E unit :=
  write_command commands.BLOCK_DATA_CONTROL 0;;
  write_command commands.DATA_CLASS class;;
  write_command commands.DATA_BLOCK block;;
  delay_ms bus 5;;
  ret tt.

(** [data: &mut [u8; 32]] is filled by the transport; every caller
    propagates an error with [?] and drops the buffer, so the model returns
    the filled buffer with [Ok]. *)
Definition memblock_read (class block : Z) (data : list Z) : M St E (list Z) :=
  memblock_prepare_op class block;;
  checksum <- read_checksum;;
  data <- i2c_write_read bus addr [commands.BLOCK_DATA] (List.length data);;
  if negb (checksum =? calculate_block_checksum data) then fail Checksum
  else ret data.

(** [for (index, byte) in data.iter().enumerate()], from [index]. *)
Fixpoint write_block_bytes (index : Z) (data : list Z) : M St E unit :=
  match data with
  | [] => ret tt
  | byte :: rest =>
      i2c_write bus addr [commands.BLOCK_DATA + index; byte];;
      write_block_bytes (index + 1) rest
  end.

Definition soft_reset : M St E unit :=
  write_control control_subcommands.SOFT_RESET.

Definition reset : M St E unit :=
  write_control control_subcommands.RESET.

Definition memblock_write (class block : Z) (data : list Z) : M St E unit :=
  let checksum := calculate_block_checksum data in
  mode_cfgupdate;;
  memblock_prepare_op class block;;
  i2c_write bus addr [commands.BLOCK_DATA];;
  write_block_bytes 0 data;;
  i2c_write bus addr [commands.BLOCK_DATA_CHECKSUM; checksum];;
  delay_ms bus 5;;
  memblock_prepare_op class block;;
  chip_checksum <- read_checksum;;
  soft_reset;;
  if checksum =? chip_checksum then ret tt else fail Checksum.

Definition write_chem_id (id : ChemId) : M St E unit :=
  mode_cfgupdate;;
  subcommand <-
    match id with
    | A4350 => ret control_subcommands.CHEM_A
    | B4200 => ret control_subcommands.CHEM_B
    | C4400 => ret control_subcommands.CHEM_C
    | ChemUnknown => panic "cannot set unknown chem id!"
    end;;
  write_control subcommand;;
  soft_reset.

Definition read_chem_id : M St E ChemId :=
  response <- read_control control_subcommands.CHEM_ID;;
  ret (ChemId_from response).

Definition check_bq27427_errata : M St E unit :=
  block <- memblock_read memory_subclass.CC_CAL 0 (List.repeat 0 MEMBLOCK_SIZE);;
  let block :=
    if negb (Z.land (nth 5 block 0) 0x80 =? 0)
    then set_nth 5 (Z.land (nth 5 block 0) (Z.land (Z.lnot 0x80) 255)) block
    else block in
  memblock_write memory_subclass.CC_CAL 0 block;;
  ret tt.

Definition probe : M St E ChipType :=
  response <- read_control control_subcommands.DEVICE_TYPE;;
  let device_type := ChipType_from response in
  match device_type with
  | BQ27427 => check_bq27427_errata
  | _ => ret tt
  end;;
  ret device_type.

Definition get_programmed_capacity : M St E Z :=
  block <- memblock_read memory_subclass.STATE 0 (List.repeat 0 MEMBLOCK_SIZE);;
  ret (read_u16_be (slice block 6 8)).

Definition set_programmed_capacity (capacity : Z) : M St E unit :=
  block <- memblock_read memory_subclass.STATE 0 (List.repeat 0 MEMBLOCK_SIZE);;
  let block := write_u16_be_at 6 capacity block in
  memblock_write memory_subclass.STATE 0 block.

Definition state_of_charge : M St E Z := read_command commands.STATE_OF_CHARGE.

Definition voltage : M St E Z := read_command commands.VOLTAGE.

Definition average_current : M St E Z :=
  raw <- read_command commands.AVERAGE_CURRENT;;
  ret (as_i16 raw).

Definition temperature : M St E Z := read_command commands.TEMPERATURE.

Definition fw_version : M St E Z := read_control control_subcommands.FW_VERSION.

End Driver.
End Lib.

(** ** memory.rs: [MemoryBlock] and the block protocol *)

Module Memory.

Record MemoryBlock : Type := mkMemoryBlock { raw : list Z }.

Definition checksum (self : MemoryBlock) : Z :=
  let csum := fold_left wrapping_add (raw self) 0 in
  255 - csum.

Definition new : MemoryBlock := mkMemoryBlock (List.repeat 0 MEMBLOCK_SIZE).

Module def.
Definition DATA_CLASS : Z := 0x3E.
Definition DATA_BLOCK : Z := 0x3F.
Definition BLOCK_DATA_START : Z := 0x40.
Definition BLOCK_DATA_CHECKSUM : Z := 0x60.
Definition BLOCK_DATA_CONTROL : Z := 0x61.
End def.

Section Driver.
Context {St E : Type} (bus : Bus St E) (addr : Z).

Definition read_checksum : M St E Z :=
  checksum <- i2c_write_read bus addr [def.BLOCK_DATA_CHECKSUM] 1;;
  ret (nth 0 checksum 0).

Definition memblock_prepare_op (class block : Z) : M St E unit :=
  i2c_write bus addr [def.BLOCK_DATA_CONTROL; 0];;
  i2c_write bus addr [def.DATA_CLASS; class];;
  i2c_write bus addr [def.DATA_BLOCK; block];;
  delay_ms bus 5;;
  ret tt.

Definition memblock_read (class at' : Z) : M St E MemoryBlock :=
  memblock_prepare_op class at';;
  let block := new in
  checksum <- read_checksum;;
  data <- i2c_write_read bus addr [def.BLOCK_DATA_START] (List.length (raw block));;
  let block := mkMemoryBlock data in
  if negb (checksum =? Memory.checksum block) then fail Checksum
  else ret block.

(** [for (i, ptr) in block.raw.iter().enumerate()], from [i]. *)
Fixpoint write_raw_bytes (i : Z) (bytes : list Z) : M St E unit :=
  match bytes with
  | [] => ret tt
  | ptr :: rest =>
      i2c_write bus addr [def.BLOCK_DATA_START + i; ptr];;
      write_raw_bytes (i + 1) rest
  end.

Definition memblock_write (class at' : Z) (block : MemoryBlock) : M St E unit :=
  Lib.mode_cfgupdate bus addr;;
  memblock_prepare_op class at';;
  write_raw_bytes 0 (raw block);;
  let checksum := Memory.checksum block in
  i2c_write bus addr [def.BLOCK_DATA_CHECKSUM; checksum];;
  delay_ms bus 5;;
  memblock_prepare_op class at';;
  chip_checksum <- read_checksum;;
  Lib.soft_reset bus addr;;
  if checksum =? chip_checksum then ret tt else fail Checksum.

End Driver.
End Memory.

(** ** known_chips.rs: the direct BQ27427 errata fix *)

Module KnownChips.
Section Driver.
Context {St E : Type} (bus : Bus St E) (addr : Z).

Definition SIGN_BIT : Z := Z.shiftl 1 7.
Definition SIGN_BYTE_OFFSET : Z := Memory.def.BLOCK_DATA_START + 5.

Definition check_fix_bq27427_errata : M St E unit :=
  Memory.memblock_prepare_op bus addr memory_subclass.CC_CAL 0;;
  buffer <- i2c_write_read bus addr [SIGN_BYTE_OFFSET] 1;;
  let cc_gain_sign_part := nth 0 buffer 0 in
  (if Z.land cc_gain_sign_part SIGN_BIT >? 0 then
     checksum <- Memory.read_checksum bus addr;;
     Lib.mode_cfgupdate bus addr;;
     i2c_write bus addr [SIGN_BYTE_OFFSET; Z.lxor cc_gain_sign_part SIGN_BIT];;
     i2c_write bus addr
       [Memory.def.BLOCK_DATA_CHECKSUM; Z.lxor checksum SIGN_BIT];;
     Lib.soft_reset bus addr
   else ret tt);;
  ret tt.

End Driver.
End KnownChips.

(** ** A simulated gauge

    A chip whose transport never fails: control subcommands are latched,
    SET_CFGUPDATE raises CFGUPMODE and SOFT_RESET clears it; the selected
    block window is a 32-byte buffer and a checksum byte, written and read
    through offsets 0x40..0x5F and 0x60.  [stuck_bus] is the same chip
    with a Flags register that never shows CFGUPMODE. *)

Module Sim.

Record SimChip : Type := mkSim {
  sim_cfgup : bool;
  sim_control : Z;
  sim_device_type : Z;
  sim_data : list Z;
  sim_checksum : Z
}.

Definition with_control (s : SimChip) (sub : Z) : SimChip :=
  mkSim (if sub =? control_subcommands.SET_CFGUPDATE then true
         else if sub =? control_subcommands.SOFT_RESET then false
         else sim_cfgup s)
        sub (sim_device_type s) (sim_data s) (sim_checksum s).

Definition with_checksum (s : SimChip) (v : Z) : SimChip :=
  mkSim (sim_cfgup s) (sim_control s) (sim_device_type s)
        (sim_data s) v.

Definition with_byte (s : SimChip) (i : nat) (v : Z) : SimChip :=
  mkSim (sim_cfgup s) (sim_control s) (sim_device_type s)
        (set_nth i v (sim_data s)) (sim_checksum s).

Definition in_window (r : Z) : bool := (0x40 <=? r) && (r <? 0x60).

Definition sim_write (s : SimChip) (a : Z) (bytes : list Z) : SimChip * option Empty_set :=
  (match bytes with
   | [r; lo; hi] => if r =? 0 then with_control s (lo + 256 * hi) else s
   | [r; v] =>
       if r =? 0x60 then with_checksum s v
       else if in_window r then with_byte s (Z.to_nat (r - 0x40)) v
       else s
   | _ => s
   end, None).

Definition sim_write_read (s : SimChip) (a : Z) (bytes : list Z) (n : nat)
  : SimChip * (list Z + Empty_set) :=
  (s, inl
    match bytes with
    | [r] =>
        if r =? 0 then
          (if sim_control s =? control_subcommands.DEVICE_TYPE
           then [lo_byte (sim_device_type s); hi_byte (sim_device_type s)]
           else [0; 0])
        else if r =? 0x06 then (if sim_cfgup s then [0x10; 0] else [0; 0])
        else if r =? 0x60 then [sim_checksum s]
        else if in_window r then firstn n (skipn (Z.to_nat (r - 0x40)) (sim_data s))
        else List.repeat 0 n
    | _ => List.repeat 0 n
    end).

Definition bus : Bus SimChip Empty_set :=
  mkBus sim_write sim_write_read (fun s _ => s).

Definition stuck_write_read (s : SimChip) (a : Z) (bytes : list Z) (n : nat)
  : SimChip * (list Z + Empty_set) :=
  match bytes with
  | [r] => if r =? 0x06 then (s, inl [0; 0]) else sim_write_read s a bytes n
  | _ => sim_write_read s a bytes n
  end.

Definition stuck_bus : Bus SimChip Empty_set :=
  mkBus sim_write stuck_write_read (fun s _ => s).

Definition start (s : SimChip) : World SimChip Empty_set := mkWorld s [].

Definition addr : Z := 0x55.

(** A block whose checksum is 0x20, held with a stale checksum byte 0x10. *)
Definition mismatch_block : list Z := 223 :: List.repeat 0 31.
Definition mismatch_chip : SimChip := mkSim false 0 0x0427 mismatch_block 0x10.

(** A BQ27427 whose CC_CAL gain-sign bit is already clear. *)
Definition clear_block : list Z := List.repeat 0 32.
Definition clear_chip : SimChip :=
  mkSim false 0 0x0427 clear_block (Lib.calculate_block_checksum clear_block).

(** A BQ27427 whose CC_CAL gain-sign bit is set. *)
Definition signed_block : list Z := [1; 2; 3; 4; 5; 0x85] ++ List.repeat 9 26.
Definition signed_chip : SimChip :=
  mkSim false 0 0x0427 signed_block (Lib.calculate_block_checksum signed_block).

End Sim.

(** ** Shapes of bus traces *)

Section Traces.
Context {E : Type} (addr : Z).

(** The three selector writes and the settle delay of [memblock_prepare_op]. *)
Definition prepare_events (class block : Z) : list (event E) :=
  [EvWrite addr [0x61; 0] None; EvWrite addr [0x3E; class] None;
   EvWrite addr [0x3F; block] None; EvDelay 5].

(** The successful one-byte-per-register data writes from offset [i]. *)
Fixpoint data_events (i : Z) (bytes : list Z) : list (event E) :=
  match bytes with
  | [] => []
  | b :: rest => EvWrite addr [0x40 + i; b] None :: data_events (i + 1) rest
  end.

(** Bit CFGUPMODE (bit 4) of the little-endian Flags response. *)
Definition cfgupmode_set (resp : list Z) : bool := Z.testbit (from_le_bytes resp) 4.

(** The flag-poll loop with [n] polls left: a 500 ms delay, then one read
    of the Flags register; stop on the flag or on a transport error. *)
Inductive polls : nat -> list (event E) -> outcome E unit -> Prop :=
| polls_timeout : polls O [] (Err PollTimeout)
| polls_found n resp :
    cfgupmode_set resp = true ->
    polls (S n) [EvDelay 500; EvWriteRead addr [0x06] 2 (inl resp)] (Ok tt)
| polls_failed n e :
    polls (S n) [EvDelay 500; EvWriteRead addr [0x06] 2 (inr e)] (Err (I2CError e))
| polls_again n resp ev r :
    cfgupmode_set resp = false ->
    polls n ev r ->
    polls (S n) (EvDelay 500 :: EvWriteRead addr [0x06] 2 (inl resp) :: ev) r.

(** Successful Flags reads answered with [resps], each after the delay. *)
Definition poll_events (resps : list (list Z)) : list (event E) :=
  List.concat (map (fun resp => [EvDelay 500; EvWriteRead addr [0x06] 2 (inl resp)]) resps).

(** The byte strings of all plain writes in a trace, in order. *)
Definition bus_writes (l : list (event E)) : list (list Z) :=
  flat_map (fun ev => match ev with EvWrite _ b _ => [b] | _ => [] end) l.

End Traces.

(** ** Outcome classes and simulated runs *)

Definition sum_bytes (l : list Z) : Z := fold_right Z.add 0 l.

Definition is_transport {E} (e : ChipError E) : Prop := exists e', e = I2CError e'.

Definition mode_err {E} (e : ChipError E) : Prop := is_transport e \/ e = PollTimeout.

(** [m] run on the simulated chip from state [s], whatever the log so far,
    ends in state [s'] with [Ok v]. *)
Definition runs_to {A} (m : M Sim.SimChip Empty_set A) (s s' : Sim.SimChip) (v : A) : Prop :=
  forall l, exists l', m (mkWorld s l) = (mkWorld s' l', Ok v).

Definition set_data (s : Sim.SimChip) (d : list Z) : Sim.SimChip :=
  Sim.mkSim (Sim.sim_cfgup s) (Sim.sim_control s) (Sim.sim_device_type s) d (Sim.sim_checksum s).

(** [m] only appends to the bus log. *)
Definition appends {St E A} (m : M St E A) : Prop :=
  forall w w' r, m w = (w', r) -> exists l, log w' = log w ++ l.

Definition errs_in {St E A} (Q : ChipError E -> Prop) (m : M St E A) : Prop :=
  forall w w' r, m w = (w', r) ->
  match r with Ok _ => True | Err e => Q e | Panic _ => False end.


Lemma bind_inv {St E A B} (m : M St E A) (k : A -> M St E B) w w' r :
  bind m k w = (w', r) ->
  (exists w1 a, m w = (w1, Ok a) /\ k a w1 = (w', r)) \/
  (exists e, m w = (w', Err e) /\ r = Err e) \/
  (exists s, m w = (w', Panic s) /\ r = Panic s).
Proof.
  unfold bind. destruct (m w) as [w1 [a|e|s]]; intros H.
  - left. eauto.
  - right; left. inversion H; subst. eauto.
  - right; right. inversion H; subst. eauto.
Qed.

Ltac inv_bind H Hm :=
  apply bind_inv in H;
  destruct H as [(?w & ?a & Hm & H) | [(?e & Hm & ?Hr) | (?s & Hm & ?Hr)]].

Lemma errs_in_ret {St E A} Q (a : A) : @errs_in St E A Q (ret a).
Proof. intros w w' r H. inversion H. exact I. Qed.

Lemma errs_in_bind {St E A B} Q (m : M St E A) (k : A -> M St E B) :
  errs_in Q m -> (forall a, errs_in Q (k a)) -> errs_in Q (bind m k).
Proof.
  intros Hm Hk w w' r H. inv_bind H H1.
  - exact (Hk _ _ _ _ H).
  - subst. exact (Hm _ _ _ H1).
  - subst. exact (Hm _ _ _ H1).
Qed.

Lemma errs_in_weaken {St E A} (Q Q' : ChipError E -> Prop) (m : M St E A) :
  (forall e, Q e -> Q' e) -> errs_in Q m -> errs_in Q' m.
Proof.
  intros HQ Hm w w' r H. specialize (Hm _ _ _ H). destruct r; auto.
Qed.

Section PrimitiveFacts.
Context {St E : Type} (bus : Bus St E) (addr : Z).

Lemma i2c_write_inv bytes w w' r :
  i2c_write bus addr bytes w = (w', r) ->
  exists res, log w' = log w ++ [EvWrite addr bytes res] /\
    r = match res with None => Ok tt | Some e => Err (I2CError e) end.
Proof.
  unfold i2c_write. destruct (bus_write bus (chip w) addr bytes) as [s res].
  intros H. inversion H; subst. exists res. auto.
Qed.

Lemma i2c_write_read_inv bytes n w w' r :
  i2c_write_read bus addr bytes n w = (w', r) ->
  exists res, log w' = log w ++ [EvWriteRead addr bytes n res] /\
    r = match res with inl resp => Ok resp | inr e => Err (I2CError e) end.
Proof.
  unfold i2c_write_read. destruct (bus_write_read bus (chip w) addr bytes n) as [s res].
  intros H. inversion H; subst. exists res. auto.
Qed.

Lemma delay_ms_inv ms w w' r :
  delay_ms bus ms w = (w', r) -> log w' = log w ++ [EvDelay ms] /\ r = Ok tt.
Proof. unfold delay_ms. intros H. inversion H; subst. auto. Qed.

Lemma errs_in_i2c_write bytes : errs_in is_transport (i2c_write bus addr bytes).
Proof.
  intros w w' r H. apply i2c_write_inv in H as [[e|] [_ ->]]; [exists e|]; auto.
Qed.

Lemma errs_in_i2c_write_read bytes n : errs_in is_transport (i2c_write_read bus addr bytes n).
Proof.
  intros w w' r H. apply i2c_write_read_inv in H as [[resp|e] [_ ->]]; [|exists e]; auto.
Qed.

Lemma errs_in_delay_ms ms : errs_in is_transport (delay_ms bus ms).
Proof. intros w w' r H. apply delay_ms_inv in H as [_ ->]. exact I. Qed.

End PrimitiveFacts.

Create HintDb driver.
#[export] Hint Resolve errs_in_ret errs_in_bind errs_in_i2c_write
  errs_in_i2c_write_read errs_in_delay_ms : driver.

(** ** Arithmetic facts *)

Lemma fold_wrapping_add (l : list Z) (c : Z) :
  0 <= c < 256 -> fold_left wrapping_add l c = (c + sum_bytes l) mod 256.
Proof.
  revert c. induction l as [|b l IH]; intros c Hc; simpl.
  - rewrite Z.add_0_r, Z.mod_small; auto.
  - rewrite IH by (unfold wrapping_add; apply Z.mod_pos_bound; lia).
    unfold wrapping_add. rewrite Zplus_mod_idemp_l. f_equal. lia.
Qed.

(** ** Block protocol building blocks *)

Section BlockFacts.
Context {St E : Type} (bus : Bus St E) (addr : Z).

Lemma Memory_prepare_ok class block w w' :
  Memory.memblock_prepare_op bus addr class block w = (w', Ok tt) ->
  log w' = log w ++ prepare_events addr class block.
Proof.
  unfold Memory.memblock_prepare_op. intros H.
  inv_bind H H1; [|discriminate|discriminate].
  apply i2c_write_inv in H1 as [[e|] [Hl1 Hr]]; [discriminate|].
  inv_bind H H2; [|discriminate|discriminate].
  apply i2c_write_inv in H2 as [[e|] [Hl2 Hr2]]; [discriminate|].
  inv_bind H H3; [|discriminate|discriminate].
  apply i2c_write_inv in H3 as [[e|] [Hl3 Hr3]]; [discriminate|].
  inv_bind H H4; [|discriminate|discriminate].
  apply delay_ms_inv in H4 as [Hl4 _].
  inversion H; subst.
  rewrite Hl4, Hl3, Hl2, Hl1. unfold prepare_events. rewrite <- !app_assoc. reflexivity.
Qed.

Lemma Memory_prepare_errs class block :
  errs_in is_transport (Memory.memblock_prepare_op bus addr class block).
Proof. unfold Memory.memblock_prepare_op. auto 10 with driver. Qed.

Lemma Lib_prepare_ok class block w w' :
  Lib.memblock_prepare_op bus addr class block w = (w', Ok tt) ->
  log w' = log w ++ prepare_events addr class block.
Proof.
  unfold Lib.memblock_prepare_op, Lib.write_command. intros H.
  inv_bind H H1; [|discriminate|discriminate].
  inv_bind H1 H1'; [|discriminate|discriminate].
  apply i2c_write_inv in H1' as [[e|] [Hl1 Hr]]; [discriminate|].
  inversion H1; subst.
  inv_bind H H2; [|discriminate|discriminate].
  inv_bind H2 H2'; [|discriminate|discriminate].
  apply i2c_write_inv in H2' as [[e|] [Hl2 Hr2]]; [discriminate|].
  inversion H2; subst.
  inv_bind H H3; [|discriminate|discriminate].
  inv_bind H3 H3'; [|discriminate|discriminate].
  apply i2c_write_inv in H3' as [[e|] [Hl3 Hr3]]; [discriminate|].
  inversion H3; subst.
  inv_bind H H4; [|discriminate|discriminate].
  apply delay_ms_inv in H4 as [Hl4 _].
  inversion H; subst.
  rewrite Hl4, Hl3, Hl2, Hl1. unfold prepare_events. rewrite <- !app_assoc. reflexivity.
Qed.

Lemma Lib_prepare_errs class block :
  errs_in is_transport (Lib.memblock_prepare_op bus addr class block).
Proof. unfold Lib.memblock_prepare_op, Lib.write_command. auto 10 with driver. Qed.

Lemma Memory_read_checksum_inv w w' r :
  Memory.read_checksum bus addr w = (w', r) ->
  exists res, log w' = log w ++ [EvWriteRead addr [0x60] 1 res] /\
    r = match res with inl c => Ok (nth 0 c 0) | inr e => Err (I2CError e) end.
Proof.
  unfold Memory.read_checksum. intros H. inv_bind H H1.
  - apply i2c_write_read_inv in H1 as [[c|e'] [Hl Hr]]; inversion Hr; subst.
    inversion H; subst. exists (inl c). auto.
  - apply i2c_write_read_inv in H1 as [[c|e'] [Hl Hr']]; inversion Hr'; subst.
    exists (inr e'). auto.
  - apply i2c_write_read_inv in H1 as [[c|e'] [Hl Hr']]; inversion Hr'.
Qed.

Lemma Lib_read_checksum_inv w w' r :
  Lib.read_checksum bus addr w = (w', r) ->
  exists res, log w' = log w ++ [EvWriteRead addr [0x60] 1 res] /\
    r = match res with inl c => Ok (nth 0 c 0) | inr e => Err (I2CError e) end.
Proof. exact (Memory_read_checksum_inv w w' r). Qed.

End BlockFacts.

(** C2: for a 32-byte buffer the block checksum is
    [255 - (sum of the bytes mod 256)]; the wrapped running sum the code
    subtracts from 255 lies in [0, 255], so the [u8] subtraction cannot
    underflow; the memory.rs [MemoryBlock::checksum] computes the same
    value.  Both are pure functions of the buffer, so two applications to
    an unchanged buffer agree. *)
Theorem block_checksum_formula (b : list Z) (Hlen : List.length b = MEMBLOCK_SIZE) :
  Lib.calculate_block_checksum b = 255 - sum_bytes b mod 256 /\
  0 <= fold_left wrapping_add b 0 <= 255 /\
  Memory.checksum (Memory.mkMemoryBlock b) = 255 - sum_bytes b mod 256.
Proof.
  unfold Lib.calculate_block_checksum, Memory.checksum. simpl.
  rewrite fold_wrapping_add by lia. rewrite Z.add_0_l.
  pose proof (Z.mod_pos_bound (sum_bytes b) 256 ltac:(lia)).
  repeat split; try reflexivity; lia.
Qed.

Lemma block_checksum_formula_witness :
  List.length (List.repeat 200 32) = MEMBLOCK_SIZE /\
  Lib.calculate_block_checksum (List.repeat 200 32) =
    255 - sum_bytes (List.repeat 200 32) mod 256 /\
  0 <= fold_left wrapping_add (List.repeat 200 32) 0 <= 255 /\
  Memory.checksum (Memory.mkMemoryBlock (List.repeat 200 32)) =
    255 - sum_bytes (List.repeat 200 32) mod 256.
Proof. split; [reflexivity|]. apply block_checksum_formula. reflexivity. Defined.

(** C3: a block read ([memblock_read] of memory.rs) whose transport
    operations all succeed selects the window, reads the chip's checksum
    byte once and the 32 data bytes once (no retry), and returns the block
    exactly when the chip's checksum equals the one recomputed over those
    bytes; otherwise it returns [Checksum], which carries no data. *)
Theorem memblock_read_checksum {St E : Type} (bus : Bus St E) (addr : Z)
    (class at' : Z) (w w' : World St E) r :
  Memory.memblock_read bus addr class at' w = (w', r) ->
  (forall e, r <> Err (I2CError e)) ->
  exists cs_resp data,
    log w' = log w ++ prepare_events addr class at' ++
      [EvWriteRead addr [0x60] 1 (inl cs_resp); EvWriteRead addr [0x40] 32 (inl data)] /\
    r = if nth 0 cs_resp 0 =? Memory.checksum (Memory.mkMemoryBlock data)
        then Ok (Memory.mkMemoryBlock data) else Err Checksum.
Proof.
  unfold Memory.memblock_read, Memory.read_checksum. intros H Hne.
  inv_bind H Hp.
  2:{ subst. destruct (Memory_prepare_errs bus addr class at' _ _ _ Hp) as [e' ->].
      exfalso. apply (Hne e'). congruence. }
  2:{ subst. pose proof (Memory_prepare_errs bus addr class at' _ _ _ Hp). contradiction. }
  destruct a. apply Memory_prepare_ok in Hp.
  inv_bind H Hc.
  2:{ apply Memory_read_checksum_inv in Hc as [[c|e'] [_ Hr']]; inversion Hr'; subst.
      exfalso. apply (Hne e'). reflexivity. }
  2:{ apply Memory_read_checksum_inv in Hc as [[c|e'] [_ Hr']]; inversion Hr'. }
  apply Memory_read_checksum_inv in Hc as [[cs|e'] [Hl1 Hr1]]; inversion Hr1; subst.
  inv_bind H Hd.
  2:{ subst. apply i2c_write_read_inv in Hd as [[d|e'] [_ Hr']]; inversion Hr'; subst.
      exfalso. apply (Hne e'). congruence. }
  2:{ subst. apply i2c_write_read_inv in Hd as [[d|e'] [_ Hr']]; inversion Hr'. }
  apply i2c_write_read_inv in Hd as [[d|e'] [Hl2 Hr2]]; inversion Hr2; subst.
  exists cs, d.
  destruct (nth 0 cs 0 =? Memory.checksum (Memory.mkMemoryBlock d));
    simpl in H; unfold fail, ret in H; inversion H; subst;
    (split; [rewrite Hl2, Hl1, Hp; rewrite <- !app_assoc; reflexivity | reflexivity]).
Qed.

Lemma memblock_read_checksum_witness :
  (forall e, snd (Memory.memblock_read Sim.bus Sim.addr 105 0 (Sim.start Sim.mismatch_chip))
             <> Err (I2CError e)) /\
  Memory.checksum (Memory.mkMemoryBlock Sim.mismatch_block) = 0x20 /\
  snd (Memory.memblock_read Sim.bus Sim.addr 105 0 (Sim.start Sim.mismatch_chip)) = Err Checksum /\
  exists cs_resp data,
    log (fst (Memory.memblock_read Sim.bus Sim.addr 105 0 (Sim.start Sim.mismatch_chip))) =
      [] ++ prepare_events Sim.addr 105 0 ++
      [EvWriteRead Sim.addr [0x60] 1 (inl cs_resp); EvWriteRead Sim.addr [0x40] 32 (inl data)] /\
    snd (Memory.memblock_read Sim.bus Sim.addr 105 0 (Sim.start Sim.mismatch_chip)) =
      if nth 0 cs_resp 0 =? Memory.checksum (Memory.mkMemoryBlock data)
      then Ok (Memory.mkMemoryBlock data) else Err Checksum.
Proof.
  split; [intros [] | split; [reflexivity | split; [reflexivity |]]].
  apply (memblock_read_checksum Sim.bus Sim.addr 105 0 (Sim.start Sim.mismatch_chip)).
  - apply surjective_pairing.
  - intros [].
Defined.

(** ** Mode state machine *)

Lemma contains_cfgupmode (raw : Z) :
  StatusFlags.contains (StatusFlags.from_bits_truncate raw) StatusFlags.CFGUPMODE =
  Z.testbit raw 4.
Proof.
  unfold StatusFlags.contains, StatusFlags.from_bits_truncate.
  rewrite <- Z.land_assoc.
  change (Z.land StatusFlags.all StatusFlags.CFGUPMODE) with 16.
  change StatusFlags.CFGUPMODE with 16.
  destruct (Z.testbit raw 4) eqn:Hb.
  - apply Z.eqb_eq. apply Z.bits_inj. intros i.
    rewrite Z.land_spec. change 16 with (2 ^ 4).
    destruct (Z.eq_dec i 4) as [->|Hi]; [rewrite Hb; reflexivity|].
    assert (i < 0 \/ 0 <= i) as [Hl|Hl] by lia.
    + rewrite !Z.testbit_neg_r by lia. reflexivity.
    + rewrite Z.pow2_bits_false by lia. rewrite andb_false_r. reflexivity.
  - apply Z.eqb_neq. intros Heq.
    assert (Z.testbit (Z.land raw 16) 4 = Z.testbit 16 4) as Ht by (rewrite Heq; reflexivity).
    rewrite Z.land_spec, Hb in Ht. discriminate.
Qed.

Section ModeFacts.
Context {St E : Type} (bus : Bus St E) (addr : Z).

Lemma write_control_inv sub w w' r :
  Lib.write_control bus addr sub w = (w', r) ->
  exists res, log w' = log w ++ [EvWrite addr [0; lo_byte sub; hi_byte sub] res] /\
    r = match res with None => Ok tt | Some e => Err (I2CError e) end.
Proof.
  unfold Lib.write_control. intros H. inv_bind H H1.
  - apply i2c_write_inv in H1 as [[e|] [Hl Hr]]; inversion Hr; subst.
    inversion H; subst. exists None. auto.
  - apply i2c_write_inv in H1 as [[e'|] [Hl Hr']]; inversion Hr'; subst.
    exists (Some e'). auto.
  - apply i2c_write_inv in H1 as [[e'|] [Hl Hr']]; inversion Hr'.
Qed.

Lemma write_control_errs sub : errs_in is_transport (Lib.write_control bus addr sub).
Proof. unfold Lib.write_control. auto with driver. Qed.

Lemma get_flags_inv w w' r :
  Lib.get_flags bus addr w = (w', r) ->
  exists res, log w' = log w ++ [EvWriteRead addr [0x06] 2 res] /\
    r = match res with
        | inl resp => Ok (StatusFlags.from_bits_truncate (from_le_bytes resp))
        | inr e => Err (I2CError e)
        end.
Proof.
  unfold Lib.get_flags, Lib.read_command. intros H. inv_bind H H1.
  - inv_bind H1 H2; [|discriminate|discriminate].
    apply i2c_write_read_inv in H2 as [[resp|e] [Hl Hr]]; inversion Hr; subst.
    inversion H1; inversion H; subst. exists (inl resp). auto.
  - inv_bind H1 H2; [discriminate| |discriminate].
    apply i2c_write_read_inv in H2 as [[resp|e'] [Hl Hr']]; inversion Hr'; subst.
    inversion Hr0; subst. exists (inr e'). auto.
  - inv_bind H1 H2; [discriminate|discriminate|].
    apply i2c_write_read_inv in H2 as [[resp|e'] [Hl Hr']]; inversion Hr'.
Qed.

Lemma wait_flags_loop_polls n w w' r :
  Lib.wait_flags_loop bus addr n StatusFlags.CFGUPMODE w = (w', r) ->
  exists ev, log w' = log w ++ ev /\ polls addr n ev r.
Proof.
  revert w. induction n as [|n IH]; intros w H; simpl in H.
  - unfold fail in H. inversion H; subst. exists []. split.
    + rewrite app_nil_r. reflexivity.
    + constructor.
  - inv_bind H H1; [|apply delay_ms_inv in H1 as [_ Hr']; discriminate
                   |apply delay_ms_inv in H1 as [_ Hr']; discriminate].
    apply delay_ms_inv in H1 as [Hl1 _].
    inv_bind H H2.
    + apply get_flags_inv in H2 as [[resp|e] [Hl2 Hr2]]; inversion Hr2; subst.
      rewrite contains_cfgupmode in H.
      destruct (Z.testbit (from_le_bytes resp) 4) eqn:Hb.
      * unfold ret in H. inversion H; subst.
        exists [EvDelay 500; EvWriteRead addr [0x06] 2 (inl resp)]. split.
        -- rewrite Hl2, Hl1, <- app_assoc. reflexivity.
        -- constructor. exact Hb.
      * destruct (IH _ H) as [ev [Hl Hp]].
        exists (EvDelay 500 :: EvWriteRead addr [0x06] 2 (inl resp) :: ev). split.
        -- rewrite Hl, Hl2, Hl1, <- !app_assoc. reflexivity.
        -- constructor; assumption.
    + apply get_flags_inv in H2 as [[resp|e'] [Hl2 Hr2]]; inversion Hr2; subst.
      exists [EvDelay 500; EvWriteRead addr [0x06] 2 (inr e')]. split.
      * rewrite Hl2, Hl1, <- app_assoc. reflexivity.
      * constructor.
    + apply get_flags_inv in H2 as [[resp|e'] [Hl2 Hr2]]; inversion Hr2.
Qed.

End ModeFacts.

(** C5: entering config-update mode writes the SET_CFGUPDATE control
    command once; if that write fails its transport error is returned at
    once.  Otherwise the rest of the trace is the flag-poll loop [polls] with
    10 polls: each poll is a 500 ms delay followed by one read of the Flags
    register, the loop returns [Ok] at the first response with CFGUPMODE,
    returns a transport error of a poll at once, and returns [PollTimeout]
    only after 10 responses without the flag.  The loop contains no write,
    so the command is never re-sent. *)
Theorem mode_cfgupdate_polls {St E : Type} (bus : Bus St E) (addr : Z)
    (w w' : World St E) r :
  Lib.mode_cfgupdate bus addr w = (w', r) ->
  (exists e, log w' = log w ++ [EvWrite addr [0; 0x13; 0] (Some e)] /\
             r = Err (I2CError e)) \/
  (exists ev, log w' = log w ++ EvWrite addr [0; 0x13; 0] None :: ev /\
              polls addr 10 ev r).
Proof.
  unfold Lib.mode_cfgupdate. intros H.
  inv_bind H H1.
  - apply write_control_inv in H1 as [[e|] [Hl1 Hr1]]; inversion Hr1; subst.
    inv_bind H H2.
    + unfold ret in H. inversion H; subst. destruct a.
      destruct (wait_flags_loop_polls bus addr _ _ _ _ H2) as [ev [Hl Hp]].
      right. exists ev. rewrite Hl, Hl1, <- app_assoc. split; [reflexivity | exact Hp].
    + subst. destruct (wait_flags_loop_polls bus addr _ _ _ _ H2) as [ev [Hl Hp]].
      right. exists ev. rewrite Hl, Hl1, <- app_assoc. split; [reflexivity | exact Hp].
    + subst. destruct (wait_flags_loop_polls bus addr _ _ _ _ H2) as [ev [Hl Hp]].
      right. exists ev. rewrite Hl, Hl1, <- app_assoc. split; [reflexivity | exact Hp].
  - apply write_control_inv in H1 as [[e'|] [Hl1 Hr1]]; inversion Hr1; subst.
    left. exists e'. split; [exact Hl1 | reflexivity].
  - apply write_control_inv in H1 as [[e'|] [Hl1 Hr1]]; inversion Hr1.
Qed.

Section Gating.
Context {St E : Type} (bus : Bus St E) (addr : Z).

Lemma bind_ok {A B} (m : M St E A) (k : A -> M St E B) w w1 a :
  m w = (w1, Ok a) -> bind m k w = k a w1.
Proof. intros H. unfold bind. rewrite H. reflexivity. Qed.

Lemma bind_err {A B} (m : M St E A) (k : A -> M St E B) w w1 e :
  m w = (w1, Err e) -> bind m k w = (w1, Err e).
Proof. intros H. unfold bind. rewrite H. reflexivity. Qed.

Hypothesis Hcmd : forall s, exists s', bus_write bus s addr [0; 0x13; 0] = (s', None).
Hypothesis Hread : forall s, exists s' resp,
  bus_write_read bus s addr [0x06] 2 = (s', inl resp) /\ cfgupmode_set resp = false.

Lemma wait_flags_loop_stuck n w :
  exists w' resps,
    Lib.wait_flags_loop bus addr n StatusFlags.CFGUPMODE w = (w', Err PollTimeout) /\
    List.length resps = n /\ log w' = log w ++ poll_events addr resps.
Proof.
  revert w. induction n as [|n IH]; intros w.
  - exists w, []. simpl. rewrite app_nil_r. auto.
  - simpl. rewrite (bind_ok _ _ w _ tt eq_refl).
    set (w1 := mkWorld (bus_delay bus (chip w) 500) (log w ++ [EvDelay 500])).
    destruct (Hread (chip w1)) as (s' & resp & Hb & Hf).
    assert (Lib.get_flags bus addr w1 =
      (mkWorld s' (log w1 ++ [EvWriteRead addr [0x06] 2 (inl resp)]),
       Ok (StatusFlags.from_bits_truncate (from_le_bytes resp)))) as Hg.
    { unfold Lib.get_flags, Lib.read_command, bind, i2c_write_read, ret.
      change commands.FLAGS with 6. rewrite Hb. reflexivity. }
    rewrite (bind_ok _ _ _ _ _ Hg), contains_cfgupmode.
    unfold cfgupmode_set in Hf. rewrite Hf.
    destruct (IH (mkWorld s' (log w1 ++ [EvWriteRead addr [0x06] 2 (inl resp)])))
      as (w' & resps & Hw & Hlen & Hl).
    exists w', (resp :: resps). split; [exact Hw|]. split; [simpl; lia|].
    rewrite Hl. simpl. rewrite <- !app_assoc. reflexivity.
Qed.

Lemma mode_cfgupdate_stuck w :
  exists w' resps,
    Lib.mode_cfgupdate bus addr w = (w', Err PollTimeout) /\
    List.length resps = 10%nat /\
    log w' = log w ++ EvWrite addr [0; 0x13; 0] None :: poll_events addr resps.
Proof.
  destruct (Hcmd (chip w)) as [s1 Hs1].
  assert (Lib.write_control bus addr control_subcommands.SET_CFGUPDATE w =
          (mkWorld s1 (log w ++ [EvWrite addr [0; 0x13; 0] None]), Ok tt)) as Hw.
  { assert (bus_write bus (chip w) addr
            [commands.CONTROL; lo_byte control_subcommands.SET_CFGUPDATE;
             hi_byte control_subcommands.SET_CFGUPDATE] = (s1, None)) as Hs by exact Hs1.
    unfold Lib.write_control, bind, i2c_write, ret. rewrite Hs. reflexivity. }
  unfold Lib.mode_cfgupdate. rewrite (bind_ok _ _ _ _ _ Hw).
  destruct (wait_flags_loop_stuck 10 (mkWorld s1 (log w ++ [EvWrite addr [0; 0x13; 0] None])))
    as (w' & resps & Hr & Hlen & Hl).
  exists w', resps. unfold Lib.wait_flags. rewrite (bind_err _ _ _ _ _ Hr).
  split; [reflexivity|]. split; [exact Hlen|].
  rewrite Hl. simpl. rewrite <- app_assoc. reflexivity.
Qed.

End Gating.

(** C4: on a chip that accepts the SET_CFGUPDATE command but whose Flags
    register never shows CFGUPMODE, a block write (memory.rs and lib.rs
    [memblock_write] alike) returns [PollTimeout], and its whole trace is
    the mode-entry command followed by the 10 delays and Flags reads: no
    block-window selection, no data-byte write and no checksum write. *)
Theorem memblock_write_gated {St E : Type} (bus : Bus St E) (addr : Z)
    (class at' : Z) (data : list Z) (w : World St E)
    (Hcmd : forall s, exists s', bus_write bus s addr [0; 0x13; 0] = (s', None))
    (Hread : forall s, exists s' resp,
       bus_write_read bus s addr [0x06] 2 = (s', inl resp) /\ cfgupmode_set resp = false) :
  exists resps, List.length resps = 10%nat /\
    snd (Memory.memblock_write bus addr class at' (Memory.mkMemoryBlock data) w) = Err PollTimeout /\
    log (fst (Memory.memblock_write bus addr class at' (Memory.mkMemoryBlock data) w)) =
      log w ++ EvWrite addr [0; 0x13; 0] None :: poll_events addr resps /\
    snd (Lib.memblock_write bus addr class at' data w) = Err PollTimeout /\
    log (fst (Lib.memblock_write bus addr class at' data w)) =
      log w ++ EvWrite addr [0; 0x13; 0] None :: poll_events addr resps.
Proof.
  destruct (mode_cfgupdate_stuck bus addr Hcmd Hread w) as (w' & resps & Hm & Hlen & Hl).
  exists resps. split; [exact Hlen|].
  unfold Memory.memblock_write, Lib.memblock_write.
  rewrite !(bind_err _ _ _ _ _ Hm). simpl. auto.
Qed.

Lemma memblock_write_gated_witness :
  (forall s, exists s', bus_write Sim.stuck_bus s Sim.addr [0; 0x13; 0] = (s', None)) /\
  (forall s, exists s' resp,
     bus_write_read Sim.stuck_bus s Sim.addr [0x06] 2 = (s', inl resp) /\
     cfgupmode_set resp = false) /\
  exists resps, List.length resps = 10%nat /\
    snd (Memory.memblock_write Sim.stuck_bus Sim.addr 82 0
           (Memory.mkMemoryBlock Sim.clear_block) (Sim.start Sim.clear_chip)) = Err PollTimeout /\
    log (fst (Memory.memblock_write Sim.stuck_bus Sim.addr 82 0
           (Memory.mkMemoryBlock Sim.clear_block) (Sim.start Sim.clear_chip))) =
      log (Sim.start Sim.clear_chip) ++ EvWrite Sim.addr [0; 0x13; 0] None :: poll_events Sim.addr resps /\
    snd (Lib.memblock_write Sim.stuck_bus Sim.addr 82 0 Sim.clear_block (Sim.start Sim.clear_chip))
      = Err PollTimeout /\
    log (fst (Lib.memblock_write Sim.stuck_bus Sim.addr 82 0 Sim.clear_block (Sim.start Sim.clear_chip))) =
      log (Sim.start Sim.clear_chip) ++ EvWrite Sim.addr [0; 0x13; 0] None :: poll_events Sim.addr resps.
Proof.
  assert (H1 : forall s, exists s', bus_write Sim.stuck_bus s Sim.addr [0; 0x13; 0] = (s', None)).
  { intros s. eexists. reflexivity. }
  assert (H2 : forall s, exists s' resp,
     bus_write_read Sim.stuck_bus s Sim.addr [0x06] 2 = (s', inl resp) /\
     cfgupmode_set resp = false).
  { intros s. exists s, [0; 0]. split; reflexivity. }
  split; [exact H1|]. split; [exact H2|].
  exact (memblock_write_gated Sim.stuck_bus Sim.addr 82 0 Sim.clear_block _ H1 H2).
Defined.

Lemma mode_cfgupdate_polls_witness :
  (exists ev, log (fst (Lib.mode_cfgupdate Sim.bus Sim.addr (Sim.start Sim.clear_chip))) =
     log (Sim.start Sim.clear_chip) ++ EvWrite Sim.addr [0; 0x13; 0] None :: ev /\
     polls Sim.addr 10 ev (snd (Lib.mode_cfgupdate Sim.bus Sim.addr (Sim.start Sim.clear_chip)))) /\
  snd (Lib.mode_cfgupdate Sim.bus Sim.addr (Sim.start Sim.clear_chip)) = Ok tt.
Proof.
  split; [|reflexivity].
  destruct (mode_cfgupdate_polls Sim.bus Sim.addr (Sim.start Sim.clear_chip) _ _
              (surjective_pairing _)) as [(e & _ & _) | H]; [destruct e | exact H].
Defined.

(** ** Block write *)

Section WriteFacts.
Context {St E : Type} (bus : Bus St E) (addr : Z).

Lemma transport_mode_err {A} (m : M St E A) : errs_in is_transport m -> errs_in mode_err m.
Proof. apply errs_in_weaken. intros e He. left. exact He. Qed.

Lemma wait_flags_loop_errs n mask :
  errs_in mode_err (Lib.wait_flags_loop bus addr n mask).
Proof.
  induction n as [|n IH]; simpl.
  - intros w w' r H. unfold fail in H. inversion H. right. reflexivity.
  - apply errs_in_bind; [apply transport_mode_err; auto with driver|]. intros [].
    apply errs_in_bind.
    + apply transport_mode_err. unfold Lib.get_flags, Lib.read_command. auto with driver.
    + intros flags. destruct (StatusFlags.contains flags mask); [apply errs_in_ret | exact IH].
Qed.

Lemma mode_cfgupdate_errs : errs_in mode_err (Lib.mode_cfgupdate bus addr).
Proof.
  unfold Lib.mode_cfgupdate. apply errs_in_bind.
  - apply transport_mode_err, write_control_errs.
  - intros _. apply errs_in_bind; [apply wait_flags_loop_errs | intros; apply errs_in_ret].
Qed.

Lemma write_raw_bytes_errs i bytes : errs_in is_transport (Memory.write_raw_bytes bus addr i bytes).
Proof. revert i. induction bytes; simpl; auto with driver. Qed.

Lemma write_raw_bytes_ok i bytes w w' :
  Memory.write_raw_bytes bus addr i bytes w = (w', Ok tt) ->
  log w' = log w ++ data_events addr i bytes.
Proof.
  revert i w. induction bytes as [|b bytes IH]; intros i w H; simpl in H.
  - inversion H. simpl. rewrite app_nil_r. reflexivity.
  - inv_bind H H1; [|discriminate|discriminate].
    apply i2c_write_inv in H1 as [[e|] [Hl Hr]]; inversion Hr.
    rewrite (IH _ _ H), Hl, <- app_assoc. reflexivity.
Qed.

Lemma write_block_bytes_errs i bytes : errs_in is_transport (Lib.write_block_bytes bus addr i bytes).
Proof. revert i. induction bytes; simpl; auto with driver. Qed.

Lemma write_block_bytes_ok i bytes w w' :
  Lib.write_block_bytes bus addr i bytes w = (w', Ok tt) ->
  log w' = log w ++ data_events addr i bytes.
Proof.
  revert i w. induction bytes as [|b bytes IH]; intros i w H; simpl in H.
  - inversion H. simpl. rewrite app_nil_r. reflexivity.
  - inv_bind H H1; [|discriminate|discriminate].
    apply i2c_write_inv in H1 as [[e|] [Hl Hr]]; inversion Hr.
    rewrite (IH _ _ H), Hl, <- app_assoc. reflexivity.
Qed.

End WriteFacts.

(** An error of a step that is neither [Ok] nor [Checksum] contradicts
    [Hok]; a panic contradicts the step's [errs_in]. *)
Ltac close_err Herr :=
  match goal with
  | Hm : _ = (_, Err ?e), Hr : ?r = Err ?e, Hok : ?r = Ok tt \/ ?r = Err Checksum |- _ =>
      let Hq := fresh "Hq" in let Hk := fresh "Hk" in
      pose proof (Herr _ _ _ Hm) as Hq; simpl in Hq; rewrite Hr in Hok;
      destruct Hok as [Hk|Hk]; inversion Hk; subst;
      destruct Hq as [[? Hq]|Hq]; discriminate
  | Hm : _ = (_, Panic _) |- _ =>
      let Hq := fresh "Hq" in pose proof (Herr _ _ _ Hm) as Hq; contradiction
  end.

Section WriteReset.
Context {St E : Type} (bus : Bus St E) (addr : Z).

Lemma Memory_memblock_write_reset class at' block w w' r :
  Memory.memblock_write bus addr class at' block w = (w', r) ->
  r = Ok tt \/ r = Err Checksum ->
  exists w1 cs_resp,
    Lib.mode_cfgupdate bus addr w = (w1, Ok tt) /\
    log w' = log w1 ++ prepare_events addr class at' ++
      data_events addr 0 (Memory.raw block) ++
      [EvWrite addr [0x60; Memory.checksum block] None; EvDelay 5] ++
      prepare_events addr class at' ++
      [EvWriteRead addr [0x60] 1 (inl cs_resp); EvWrite addr [0; 0x42; 0] None] /\
    r = (if Memory.checksum block =? nth 0 cs_resp 0 then Ok tt else Err Checksum).
Proof.
  unfold Memory.memblock_write. intros H Hok.
  inv_bind H H1; try close_err (mode_cfgupdate_errs bus addr). destruct a.
  inv_bind H H2;
    try close_err (transport_mode_err _ (Memory_prepare_errs bus addr class at')).
  destruct a. apply Memory_prepare_ok in H2.
  inv_bind H H3;
    try close_err (transport_mode_err _ (write_raw_bytes_errs bus addr 0 (Memory.raw block))).
  destruct a. apply write_raw_bytes_ok in H3.
  inv_bind H H4;
    try close_err (transport_mode_err _ (errs_in_i2c_write bus addr
                     [Memory.def.BLOCK_DATA_CHECKSUM; Memory.checksum block])).
  apply i2c_write_inv in H4 as [[e|] [Hl4 Hr4]]; inversion Hr4.
  inv_bind H H5; try (apply delay_ms_inv in H5 as [_ Hr5]; discriminate).
  apply delay_ms_inv in H5 as [Hl5 _].
  inv_bind H H6;
    try close_err (transport_mode_err _ (Memory_prepare_errs bus addr class at')).
  destruct a1. apply Memory_prepare_ok in H6.
  inv_bind H H7;
    try (apply Memory_read_checksum_inv in H7 as [[c|e'] [_ Hr7]]; inversion Hr7; subst;
         destruct Hok as [Hk|Hk]; discriminate).
  apply Memory_read_checksum_inv in H7 as [[cs|e'] [Hl7 Hr7]]; inversion Hr7; subst.
  inv_bind H H8;
    try (apply write_control_inv in H8 as [[e'|] [_ Hr8]]; inversion Hr8; subst;
         destruct Hok as [Hk|Hk]; discriminate).
  apply write_control_inv in H8 as [[e'|] [Hl8 Hr8]]; inversion Hr8; subst.
  exists w0, cs. split; [exact H1|].
  destruct (Memory.checksum block =? nth 0 cs 0);
    unfold ret, fail in H; inversion H; subst;
    (split; [|reflexivity]);
    rewrite Hl8, Hl7, H6, Hl5, Hl4, H3, H2; rewrite <- !app_assoc; reflexivity.
Qed.

Lemma Lib_memblock_write_reset class block data w w' r :
  Lib.memblock_write bus addr class block data w = (w', r) ->
  r = Ok tt \/ r = Err Checksum ->
  exists w1 cs_resp,
    Lib.mode_cfgupdate bus addr w = (w1, Ok tt) /\
    log w' = log w1 ++ prepare_events addr class block ++
      [EvWrite addr [0x40] None] ++ data_events addr 0 data ++
      [EvWrite addr [0x60; Lib.calculate_block_checksum data] None; EvDelay 5] ++
      prepare_events addr class block ++
      [EvWriteRead addr [0x60] 1 (inl cs_resp); EvWrite addr [0; 0x42; 0] None] /\
    r = (if Lib.calculate_block_checksum data =? nth 0 cs_resp 0
         then Ok tt else Err Checksum).
Proof.
  unfold Lib.memblock_write. cbv beta zeta. intros H Hok.
  inv_bind H Hx1; try close_err (mode_cfgupdate_errs bus addr). destruct a.
  inv_bind H Hx2;
    try close_err (transport_mode_err _ (Lib_prepare_errs bus addr class block)).
  destruct a. apply Lib_prepare_ok in Hx2.
  inv_bind H Hx2';
    try close_err (transport_mode_err _ (errs_in_i2c_write bus addr [commands.BLOCK_DATA])).
  apply i2c_write_inv in Hx2' as [[e|] [Hl2' Hr2']]; inversion Hr2'.
  inv_bind H Hx3;
    try close_err (transport_mode_err _ (write_block_bytes_errs bus addr 0 data)).
  destruct a0. apply write_block_bytes_ok in Hx3.
  inv_bind H Hx4;
    try close_err (transport_mode_err _ (errs_in_i2c_write bus addr
                     [commands.BLOCK_DATA_CHECKSUM; Lib.calculate_block_checksum data])).
  apply i2c_write_inv in Hx4 as [[e|] [Hl4 Hr4]]; inversion Hr4.
  inv_bind H Hx5; try (apply delay_ms_inv in Hx5 as [_ Hr5]; discriminate).
  apply delay_ms_inv in Hx5 as [Hl5 _].
  inv_bind H Hx6;
    try close_err (transport_mode_err _ (Lib_prepare_errs bus addr class block)).
  destruct a2. apply Lib_prepare_ok in Hx6.
  inv_bind H Hx7;
    try (apply Lib_read_checksum_inv in Hx7 as [[c|e'] [_ Hr7]]; inversion Hr7; subst;
         destruct Hok as [Hk|Hk]; discriminate).
  apply Lib_read_checksum_inv in Hx7 as [[cs|e'] [Hl7 Hr7]]; inversion Hr7; subst.
  inv_bind H Hx8;
    try (apply write_control_inv in Hx8 as [[e'|] [_ Hr8]]; inversion Hr8; subst;
         destruct Hok as [Hk|Hk]; discriminate).
  apply write_control_inv in Hx8 as [[e'|] [Hl8 Hr8]]; inversion Hr8; subst.
  exists w0, cs. split; [exact Hx1|].
  destruct (Lib.calculate_block_checksum data =? nth 0 cs 0);
    unfold ret, fail in H; inversion H; subst;
    (split; [|reflexivity]);
    rewrite Hl8, Hl7, Hx6, Hl5, Hl4, Hx3, Hl2', Hx2; rewrite <- !app_assoc; reflexivity.
Qed.

End WriteReset.

(** C1: a block write (memory.rs and lib.rs [memblock_write]) that returns
    [Ok] or a [Checksum] error has entered config-update mode, written the
    32 data bytes and its checksum, re-selected the window, read the chip's
    checksum, and then issued a successful SOFT_RESET control write as its
    last bus transaction; only after it does the result depend on the
    comparison of the two checksums. *)
Theorem memblock_write_soft_reset {St E : Type} (bus : Bus St E) (addr : Z) :
  (forall class at' block (w w' : World St E) r,
    Memory.memblock_write bus addr class at' block w = (w', r) ->
    r = Ok tt \/ r = Err Checksum ->
    exists w1 cs_resp,
      Lib.mode_cfgupdate bus addr w = (w1, Ok tt) /\
      log w' = log w1 ++ prepare_events addr class at' ++
        data_events addr 0 (Memory.raw block) ++
        [EvWrite addr [0x60; Memory.checksum block] None; EvDelay 5] ++
        prepare_events addr class at' ++
        [EvWriteRead addr [0x60] 1 (inl cs_resp); EvWrite addr [0; 0x42; 0] None] /\
      r = (if Memory.checksum block =? nth 0 cs_resp 0 then Ok tt else Err Checksum)) /\
  (forall class block data (w w' : World St E) r,
    Lib.memblock_write bus addr class block data w = (w', r) ->
    r = Ok tt \/ r = Err Checksum ->
    exists w1 cs_resp,
      Lib.mode_cfgupdate bus addr w = (w1, Ok tt) /\
      log w' = log w1 ++ prepare_events addr class block ++
        [EvWrite addr [0x40] None] ++ data_events addr 0 data ++
        [EvWrite addr [0x60; Lib.calculate_block_checksum data] None; EvDelay 5] ++
        prepare_events addr class block ++
        [EvWriteRead addr [0x60] 1 (inl cs_resp); EvWrite addr [0; 0x42; 0] None] /\
      r = (if Lib.calculate_block_checksum data =? nth 0 cs_resp 0
           then Ok tt else Err Checksum)).
Proof.
  split; [apply Memory_memblock_write_reset | apply Lib_memblock_write_reset].
Qed.

Lemma memblock_write_soft_reset_witness :
  let block := Memory.mkMemoryBlock Sim.signed_block in
  let run := Memory.memblock_write Sim.bus Sim.addr 105 0 block (Sim.start Sim.signed_chip) in
  (snd run = Ok tt \/ snd run = Err Checksum) /\
  exists w1 cs_resp,
    Lib.mode_cfgupdate Sim.bus Sim.addr (Sim.start Sim.signed_chip) = (w1, Ok tt) /\
    log (fst run) = log w1 ++ prepare_events Sim.addr 105 0 ++
      data_events Sim.addr 0 (Memory.raw block) ++
      [EvWrite Sim.addr [0x60; Memory.checksum block] None; EvDelay 5] ++
      prepare_events Sim.addr 105 0 ++
      [EvWriteRead Sim.addr [0x60] 1 (inl cs_resp); EvWrite Sim.addr [0; 0x42; 0] None] /\
    snd run = (if Memory.checksum block =? nth 0 cs_resp 0 then Ok tt else Err Checksum).
Proof.
  intros block run.
  assert (Hok : snd run = Ok tt \/ snd run = Err Checksum) by (left; vm_compute; reflexivity).
  split; [exact Hok|].
  exact (proj1 (memblock_write_soft_reset Sim.bus Sim.addr) 105 0 block
           (Sim.start Sim.signed_chip) (fst run) (snd run) (surjective_pairing run) Hok).
Defined.

(** ** Byte arithmetic of the errata fix *)

Lemma byte_forall (f : Z -> bool) :
  forallb f (map Z.of_nat (seq 0 256)) = true -> forall x, 0 <= x < 256 -> f x = true.
Proof.
  intros Hall x Hx. rewrite forallb_forall in Hall. apply Hall.
  apply in_map_iff. exists (Z.to_nat x). split; [lia|]. apply in_seq. lia.
Qed.

Lemma xor_sign_clear (b : Z) :
  0 <= b < 256 -> Z.testbit b 7 = true ->
  Z.lxor b 0x80 = Z.land b 0x7F /\ Z.land b 0x7F = b - 128 /\ Z.land b 0x80 = 0x80.
Proof.
  intros Hb Ht.
  pose proof (byte_forall
    (fun x => negb (Z.testbit x 7) ||
              ((Z.lxor x 0x80 =? Z.land x 0x7F) && (Z.land x 0x7F =? x - 128) &&
               (Z.land x 0x80 =? 0x80)))
    ltac:(vm_compute; reflexivity) b Hb) as H.
  cbv beta in H. rewrite Ht in H. simpl in H.
  apply andb_prop in H as [H H3]. apply andb_prop in H as [H1 H2].
  apply Z.eqb_eq in H1, H2, H3. auto.
Qed.

Lemma checksum_flip (x : Z) :
  0 <= x < 256 -> 255 - ((x - 128) mod 256) = Z.lxor (255 - x) 0x80.
Proof.
  intros Hx. apply Z.eqb_eq.
  exact (byte_forall (fun x => 255 - ((x - 128) mod 256) =? Z.lxor (255 - x) 0x80)
           ltac:(vm_compute; reflexivity) x Hx).
Qed.

Lemma sum_bytes_set_nth (i : nat) (v : Z) (l : list Z) :
  (i < List.length l)%nat -> sum_bytes (set_nth i v l) = sum_bytes l - nth i l 0 + v.
Proof.
  revert i. induction l as [|h t IH]; intros i Hi; simpl in Hi; [lia|].
  destruct i as [|i]; simpl.
  - lia.
  - unfold sum_bytes in *. simpl. rewrite IH by lia. lia.
Qed.

Lemma length_set_nth (i : nat) (v : Z) (l : list Z) :
  List.length (set_nth i v l) = List.length l.
Proof.
  revert i. induction l as [|h t IH]; intros [|i]; simpl; auto.
Qed.

Lemma set_nth_app (pre old : list Z) (x v : Z) :
  set_nth (List.length pre) v (pre ++ x :: old) = pre ++ v :: old.
Proof. induction pre as [|h t IH]; simpl; [reflexivity | rewrite IH; reflexivity]. Qed.

(** Clearing the sign bit of byte 5 flips bit 7 of the block checksum. *)
Lemma checksum_clear_sign (blk : list Z) :
  (6 <= List.length blk)%nat -> 0 <= nth 5 blk 0 < 256 -> Z.testbit (nth 5 blk 0) 7 = true ->
  Lib.calculate_block_checksum (set_nth 5 (Z.land (nth 5 blk 0) 0x7F) blk) =
  Z.lxor (Lib.calculate_block_checksum blk) 0x80.
Proof.
  intros Hlen Hb Ht.
  destruct (xor_sign_clear _ Hb Ht) as (_ & Hland & _).
  unfold Lib.calculate_block_checksum.
  rewrite !fold_wrapping_add by lia. rewrite !Z.add_0_l.
  rewrite sum_bytes_set_nth by lia. rewrite Hland.
  replace (sum_bytes blk - nth 5 blk 0 + (nth 5 blk 0 - 128)) with (sum_bytes blk - 128) by lia.
  rewrite <- Zminus_mod_idemp_l. apply checksum_flip. apply Z.mod_pos_bound. lia.
Qed.

(** ** Runs on the simulated chip *)

Section SimRuns.
Variable a : Z.

Lemma runs_bind {A B} (m : M Sim.SimChip Empty_set A) (k : A -> M Sim.SimChip Empty_set B)
    s s1 s2 v u :
  runs_to m s s1 v -> runs_to (k v) s1 s2 u -> runs_to (bind m k) s s2 u.
Proof.
  intros H1 H2 l. destruct (H1 l) as [l1 E1]. destruct (H2 l1) as [l2 E2].
  exists l2. unfold bind. rewrite E1. exact E2.
Qed.

Lemma runs_ret {A} (v : A) s : runs_to (ret v) s s v.
Proof. intros l. exists l. reflexivity. Qed.

Lemma runs_Memory_prepare c b s : runs_to (Memory.memblock_prepare_op Sim.bus a c b) s s tt.
Proof. intros l. eexists. reflexivity. Qed.

Lemma runs_Lib_prepare c b s : runs_to (Lib.memblock_prepare_op Sim.bus a c b) s s tt.
Proof. intros l. eexists. reflexivity. Qed.

Lemma runs_mode_cfgupdate s :
  runs_to (Lib.mode_cfgupdate Sim.bus a) s (Sim.with_control s 0x13) tt.
Proof. intros l. eexists. reflexivity. Qed.

Lemma runs_soft_reset s :
  runs_to (Lib.soft_reset Sim.bus a) s (Sim.with_control s 0x42) tt.
Proof. intros l. eexists. reflexivity. Qed.

Lemma runs_read_checksum s :
  runs_to (Lib.read_checksum Sim.bus a) s s (Sim.sim_checksum s).
Proof. intros l. eexists. reflexivity. Qed.

Lemma sim_write_byte s i v :
  0 <= i < 32 ->
  Sim.sim_write s a [0x40 + i; v] = (Sim.with_byte s (Z.to_nat i) v, None).
Proof.
  intros Hi. unfold Sim.sim_write.
  replace (0x40 + i =? 0x60) with false by (symmetry; apply Z.eqb_neq; lia).
  replace (Sim.in_window (0x40 + i)) with true
    by (unfold Sim.in_window; symmetry; apply andb_true_intro; split;
        [apply Z.leb_le | apply Z.ltb_lt]; lia).
  do 3 f_equal. lia.
Qed.

Lemma runs_write_block_bytes bytes pre old s :
  Sim.sim_data s = pre ++ old -> List.length old = List.length bytes ->
  (List.length pre + List.length bytes <= 32)%nat ->
  runs_to (Lib.write_block_bytes Sim.bus a (Z.of_nat (List.length pre)) bytes) s
          (set_data s (pre ++ bytes)) tt.
Proof.
  revert pre old s. induction bytes as [|b bytes IH]; intros pre old s Hd Hl Hb;
    cbn [Lib.write_block_bytes].
  - destruct old; [|discriminate]. rewrite app_nil_r in *.
    destruct s; simpl in *; subst. apply runs_ret.
  - destruct old as [|x old]; [discriminate|]. simpl in Hl, Hb.
    apply runs_bind with (s1 := set_data s (pre ++ b :: old)) (v := tt).
    + intros l. eexists. unfold i2c_write.
      change (bus_write Sim.bus) with Sim.sim_write. change commands.BLOCK_DATA with 0x40.
      cbn [chip]. rewrite sim_write_byte by lia. unfold Sim.with_byte. rewrite Nat2Z.id, Hd, set_nth_app.
      reflexivity.
    + replace (Z.of_nat (List.length pre) + 1) with (Z.of_nat (List.length (pre ++ [b])))
        by (rewrite length_app; simpl; lia).
      replace (pre ++ b :: bytes) with ((pre ++ [b]) ++ bytes) by (rewrite <- app_assoc; reflexivity).
      replace (set_data s ((pre ++ [b]) ++ bytes))
        with (set_data (set_data s (pre ++ b :: old)) ((pre ++ [b]) ++ bytes)) by reflexivity.
      apply IH with (old := old).
      * simpl. rewrite <- app_assoc. reflexivity.
      * lia.
      * rewrite length_app. simpl. lia.
Qed.

Lemma runs_Lib_memblock_read s :
  List.length (Sim.sim_data s) = 32%nat ->
  Sim.sim_checksum s = Lib.calculate_block_checksum (Sim.sim_data s) ->
  runs_to (Lib.memblock_read Sim.bus a 105 0 (List.repeat 0 MEMBLOCK_SIZE)) s s (Sim.sim_data s).
Proof.
  intros Hlen Hcs. unfold Lib.memblock_read.
  eapply runs_bind; [apply runs_Lib_prepare|].
  eapply runs_bind; [apply runs_read_checksum|].
  apply runs_bind with (s1 := s) (v := firstn 32 (Sim.sim_data s)).
  { intros l. eexists. reflexivity. }
  cbv beta. rewrite firstn_all2 by lia.
  rewrite Hcs, Z.eqb_refl. apply runs_ret.
Qed.

Lemma runs_Lib_memblock_write s data :
  List.length (Sim.sim_data s) = 32%nat -> List.length data = 32%nat ->
  runs_to (Lib.memblock_write Sim.bus a 105 0 data) s
    (Sim.with_control
       (Sim.with_checksum (set_data (Sim.with_control s 0x13) data)
          (Lib.calculate_block_checksum data)) 0x42) tt.
Proof.
  intros Hls Hld. unfold Lib.memblock_write. cbv beta zeta.
  eapply runs_bind; [apply runs_mode_cfgupdate|].
  eapply runs_bind; [apply runs_Lib_prepare|].
  apply runs_bind with (s1 := Sim.with_control s 0x13) (v := tt).
  { intros l. eexists. reflexivity. }
  eapply runs_bind.
  { apply (runs_write_block_bytes data [] (Sim.sim_data s)); simpl; [reflexivity | lia | lia]. }
  apply runs_bind with (v := tt)
    (s1 := Sim.with_checksum (set_data (Sim.with_control s 0x13) data)
             (Lib.calculate_block_checksum data)).
  { intros l. eexists. reflexivity. }
  apply runs_bind with (v := tt)
    (s1 := Sim.with_checksum (set_data (Sim.with_control s 0x13) data)
             (Lib.calculate_block_checksum data)).
  { intros l. eexists. reflexivity. }
  eapply runs_bind; [apply runs_Lib_prepare|].
  eapply runs_bind; [apply runs_read_checksum|].
  eapply runs_bind; [apply runs_soft_reset|].
  cbn [Sim.sim_checksum Sim.with_checksum]. rewrite Z.eqb_refl. apply runs_ret.
Qed.

Lemma firstn_skipn_nth (d : list Z) (i : nat) :
  (i < List.length d)%nat -> firstn 1 (skipn i d) = [nth i d 0].
Proof.
  revert d. induction i as [|i IH]; intros [|x d] H; simpl in *; try lia.
  - reflexivity.
  - apply IH. lia.
Qed.

Lemma runs_check_fix s :
  (6 <= List.length (Sim.sim_data s))%nat ->
  0 <= nth 5 (Sim.sim_data s) 0 < 256 -> Z.testbit (nth 5 (Sim.sim_data s) 0) 7 = true ->
  runs_to (KnownChips.check_fix_bq27427_errata Sim.bus a) s
    (Sim.with_control
       (Sim.with_checksum
          (Sim.with_byte (Sim.with_control s 0x13) 5 (Z.lxor (nth 5 (Sim.sim_data s) 0) 0x80))
          (Z.lxor (Sim.sim_checksum s) 0x80)) 0x42) tt.
Proof.
  intros Hlen Hb Ht. destruct (xor_sign_clear _ Hb Ht) as (_ & _ & Hland).
  unfold KnownChips.check_fix_bq27427_errata.
  eapply runs_bind; [apply runs_Memory_prepare|].
  assert (Hr : Sim.sim_write_read s a [0x45] 1 = (s, inl [nth 5 (Sim.sim_data s) 0])).
  { transitivity (s, @inl _ Empty_set (firstn 1 (skipn 5 (Sim.sim_data s)))); [reflexivity|].
    rewrite firstn_skipn_nth by lia. reflexivity. }
  apply runs_bind with (s1 := s) (v := [nth 5 (Sim.sim_data s) 0]).
  { intros l. eexists. unfold i2c_write_read.
    change (bus_write_read Sim.bus) with Sim.sim_write_read.
    change KnownChips.SIGN_BYTE_OFFSET with 0x45. cbn [chip]. rewrite Hr. reflexivity. }
  cbv beta zeta. cbn [nth]. change KnownChips.SIGN_BIT with 0x80. rewrite Hland.
  cbn [Z.gtb Z.compare Pos.compare Pos.compare_cont].
  eapply runs_bind; [|apply runs_ret].
  apply runs_bind with (s1 := s) (v := Sim.sim_checksum s).
  { intros l. eexists. reflexivity. }
  eapply runs_bind; [apply runs_mode_cfgupdate|].
  apply runs_bind with (v := tt)
    (s1 := Sim.with_byte (Sim.with_control s 0x13) 5 (Z.lxor (nth 5 (Sim.sim_data s) 0) 0x80)).
  { intros l. eexists. reflexivity. }
  apply runs_bind with (v := tt)
    (s1 := Sim.with_checksum
             (Sim.with_byte (Sim.with_control s 0x13) 5 (Z.lxor (nth 5 (Sim.sim_data s) 0) 0x80))
             (Z.lxor (Sim.sim_checksum s) 0x80)).
  { intros l. eexists. reflexivity. }
  apply runs_soft_reset.
Qed.

Lemma runs_check_bq27427_errata s :
  List.length (Sim.sim_data s) = 32%nat ->
  Sim.sim_checksum s = Lib.calculate_block_checksum (Sim.sim_data s) ->
  0 <= nth 5 (Sim.sim_data s) 0 < 256 -> Z.testbit (nth 5 (Sim.sim_data s) 0) 7 = true ->
  let data := set_nth 5 (Z.land (nth 5 (Sim.sim_data s) 0) 0x7F) (Sim.sim_data s) in
  runs_to (Lib.check_bq27427_errata Sim.bus a) s
    (Sim.with_control
       (Sim.with_checksum (set_data (Sim.with_control s 0x13) data)
          (Lib.calculate_block_checksum data)) 0x42) tt.
Proof.
  intros Hlen Hcs Hb Ht data. destruct (xor_sign_clear _ Hb Ht) as (_ & _ & Hland).
  unfold Lib.check_bq27427_errata.
  eapply runs_bind; [apply runs_Lib_memblock_read; assumption|].
  cbv beta zeta. rewrite Hland. cbn [Z.eqb negb].
  eapply runs_bind; [|apply runs_ret].
  replace (Z.land (Z.lnot 0x80) 255) with 0x7F by reflexivity.
  apply runs_Lib_memblock_write; [assumption|].
  unfold data. rewrite length_set_nth. assumption.
Qed.

End SimRuns.

(** ** The two errata remediations *)

(** C7: on the simulated chip, starting from a 32-byte CC_CAL block with a
    valid checksum whose byte 5 has bit 7 set, the direct register path
    ([check_fix_bq27427_errata] of known_chips.rs) and the full
    read-modify-write path ([check_bq27427_errata] of lib.rs) both succeed
    and leave the chip in the same state: it holds the block with bit 7 of
    byte 5 cleared and the checksum recomputed over it, and the old
    checksum XOR 0x80 equals that recomputed checksum. *)
Theorem errata_paths_agree (s : Sim.SimChip) :
  List.length (Sim.sim_data s) = 32%nat ->
  Sim.sim_checksum s = Lib.calculate_block_checksum (Sim.sim_data s) ->
  0 <= nth 5 (Sim.sim_data s) 0 < 256 -> Z.testbit (nth 5 (Sim.sim_data s) 0) 7 = true ->
  let direct := KnownChips.check_fix_bq27427_errata Sim.bus Sim.addr (Sim.start s) in
  let full := Lib.check_bq27427_errata Sim.bus Sim.addr (Sim.start s) in
  let data := set_nth 5 (Z.land (nth 5 (Sim.sim_data s) 0) 0x7F) (Sim.sim_data s) in
  snd direct = Ok tt /\ snd full = Ok tt /\
  chip (fst direct) = chip (fst full) /\
  Sim.sim_data (chip (fst full)) = data /\
  Sim.sim_checksum (chip (fst full)) = Lib.calculate_block_checksum data /\
  Z.lxor (Sim.sim_checksum s) 0x80 = Lib.calculate_block_checksum data.
Proof.
  intros Hlen Hcs Hb Ht direct full data.
  assert (Hcalc : Z.lxor (Sim.sim_checksum s) 0x80 = Lib.calculate_block_checksum data).
  { unfold data. rewrite Hcs. symmetry. apply checksum_clear_sign; [lia | assumption | assumption]. }
  destruct (xor_sign_clear _ Hb Ht) as (Hx & _ & _).
  destruct (runs_check_fix Sim.addr s ltac:(lia) Hb Ht []) as [l1 H1].
  destruct (runs_check_bq27427_errata Sim.addr s Hlen Hcs Hb Ht []) as [l2 H2].
  unfold direct, full, Sim.start. rewrite H1, H2. cbn [fst snd chip].
  rewrite Hx, Hcalc. fold data.
  repeat split; reflexivity.
Qed.

Lemma errata_paths_agree_witness :
  let s := Sim.signed_chip in
  let direct := KnownChips.check_fix_bq27427_errata Sim.bus Sim.addr (Sim.start s) in
  let full := Lib.check_bq27427_errata Sim.bus Sim.addr (Sim.start s) in
  let data := set_nth 5 (Z.land (nth 5 (Sim.sim_data s) 0) 0x7F) (Sim.sim_data s) in
  snd direct = Ok tt /\ snd full = Ok tt /\
  chip (fst direct) = chip (fst full) /\
  Sim.sim_data (chip (fst full)) = data /\
  Sim.sim_checksum (chip (fst full)) = Lib.calculate_block_checksum data /\
  Z.lxor (Sim.sim_checksum s) 0x80 = Lib.calculate_block_checksum data.
Proof.
  apply (errata_paths_agree Sim.signed_chip).
  - reflexivity.
  - reflexivity.
  - replace (nth 5 (Sim.sim_data Sim.signed_chip) 0) with 0x85 by reflexivity. lia.
  - reflexivity.
Defined.

(** ** Re-running the errata patcher *)

(** C6: the patcher run by [probe] ([check_bq27427_errata] of lib.rs) has
    no check-before-fix gate. On the simulated BQ27427 whose gain-sign bit
    is set, a first run clears the bit; a second run, on the resulting
    chip, still enters config-update mode, rewrites the 32 data bytes and
    the checksum and soft-resets (45 writes in all), where the gated
    direct path of known_chips.rs issues only the three window-selector
    writes it needs to read the bit. *)
Theorem errata_rerun_writes :
  let w1 := fst (Lib.check_bq27427_errata Sim.bus Sim.addr (Sim.start Sim.signed_chip)) in
  let run2 := Lib.check_bq27427_errata Sim.bus Sim.addr w1 in
  let extra := bus_writes (skipn (List.length (log w1)) (log (fst run2))) in
  let k1 := fst (KnownChips.check_fix_bq27427_errata Sim.bus Sim.addr (Sim.start Sim.signed_chip)) in
  let k2 := KnownChips.check_fix_bq27427_errata Sim.bus Sim.addr k1 in
  snd (Lib.check_bq27427_errata Sim.bus Sim.addr (Sim.start Sim.signed_chip)) = Ok tt /\
  Z.testbit (nth 5 (Sim.sim_data (chip w1)) 0) 7 = false /\
  snd run2 = Ok tt /\
  List.length extra = 45%nat /\
  In [0; control_subcommands.SET_CFGUPDATE; 0] extra /\
  In [0x45; 0x05] extra /\
  In [0x60; Lib.calculate_block_checksum (Sim.sim_data (chip w1))] extra /\
  In [0; control_subcommands.SOFT_RESET; 0] extra /\
  Z.testbit (nth 5 (Sim.sim_data (chip k1)) 0) 7 = false /\
  snd k2 = Ok tt /\
  bus_writes (skipn (List.length (log k1)) (log (fst k2))) =
    [[0x61; 0]; [0x3E; memory_subclass.CC_CAL]; [0x3F; 0]].
Proof.
  vm_compute.
  repeat split; repeat (first [left; reflexivity | right]).
Qed.

(** ** Probing *)

(** C8 (counterexample): [probe] does not return a [ChipType] for every
    response once the device-type read succeeds. The simulated chip below
    answers 0x0427 (BQ27427), so [probe] runs the errata patcher, whose
    block read meets a stale checksum byte; [probe] returns that
    [Checksum] error. *)
Lemma probe_stale_errata_block :
  snd (Lib.read_control Sim.bus Sim.addr control_subcommands.DEVICE_TYPE
         (Sim.start Sim.mismatch_chip)) = Ok 0x0427 /\
  snd (Lib.probe Sim.bus Sim.addr (Sim.start Sim.mismatch_chip)) = Err Checksum.
Proof. split; vm_compute; reflexivity. Qed.

(** C8: decoding a device-type response is total: 0x0421 decodes to
    BQ27421, and every code other than the three known ones (0xFFFF for
    one) decodes to Unknown. Once the device-type read has returned [r],
    [probe] returns the decoded type unless it is BQ27427; for BQ27427 it
    runs [check_bq27427_errata] and returns BQ27427 only if that succeeds,
    its error (or panic) otherwise. *)
Theorem probe_decodes_device_type {St E : Type} (bus : Bus St E) (addr : Z)
    (w w1 : World St E) (r : Z) :
  Lib.read_control bus addr control_subcommands.DEVICE_TYPE w = (w1, Ok r) ->
  (ChipType_from 0x0421 = BQ27421 /\ ChipType_from 0xFFFF = Unknown) /\
  (r <> 0x0421 -> r <> 0x0426 -> r <> 0x0427 -> ChipType_from r = Unknown) /\
  (ChipType_from r <> BQ27427 -> Lib.probe bus addr w = (w1, Ok (ChipType_from r))) /\
  (ChipType_from r = BQ27427 ->
   Lib.probe bus addr w =
     (fst (Lib.check_bq27427_errata bus addr w1),
      match snd (Lib.check_bq27427_errata bus addr w1) with
      | Ok _ => Ok BQ27427
      | Err e => Err e
      | Panic m => Panic m
      end)).
Proof.
  intros Hread.
  split; [split; reflexivity|].
  split.
  { intros H1 H2 H3. unfold ChipType_from.
    rewrite (proj2 (Z.eqb_neq _ _) H1), (proj2 (Z.eqb_neq _ _) H2), (proj2 (Z.eqb_neq _ _) H3).
    reflexivity. }
  unfold Lib.probe.
  split; intros Hc; unfold bind at 1; rewrite Hread.
  - destruct (ChipType_from r); [reflexivity | reflexivity | congruence | reflexivity].
  - rewrite Hc. unfold bind.
    destruct (Lib.check_bq27427_errata bus addr w1) as [w2 [u | e | m]]; reflexivity.
Qed.

Lemma probe_decodes_device_type_witness :
  let w := Sim.start Sim.clear_chip in
  let w1 := fst (Lib.read_control Sim.bus Sim.addr control_subcommands.DEVICE_TYPE w) in
  (ChipType_from 0x0421 = BQ27421 /\ ChipType_from 0xFFFF = Unknown) /\
  (0x0427 <> 0x0421 -> 0x0427 <> 0x0426 -> 0x0427 <> 0x0427 -> ChipType_from 0x0427 = Unknown) /\
  (ChipType_from 0x0427 <> BQ27427 -> Lib.probe Sim.bus Sim.addr w = (w1, Ok (ChipType_from 0x0427))) /\
  (ChipType_from 0x0427 = BQ27427 ->
   Lib.probe Sim.bus Sim.addr w =
     (fst (Lib.check_bq27427_errata Sim.bus Sim.addr w1),
      match snd (Lib.check_bq27427_errata Sim.bus Sim.addr w1) with
      | Ok _ => Ok BQ27427
      | Err e => Err e
      | Panic m => Panic m
      end)).
Proof.
  intros w w1.
  apply (probe_decodes_device_type Sim.bus Sim.addr w w1 0x0427).
  reflexivity.
Defined.

(** ** Control writes and the error taxonomy *)

(** C9 (counterexample): the chip error type has no variant besides
    [I2CError], [PollTimeout] and [Checksum]; in particular there is no
    [UsageError]. *)
Lemma chip_error_no_usage_variant :
  ~ exists e : ChipError unit,
      (forall x, e <> I2CError x) /\ e <> PollTimeout /\ e <> Checksum.
Proof.
  intros [[x| |] (H1 & H2 & H3)]; [apply (H1 x) | apply H2 | apply H3]; reflexivity.
Qed.

(** C9: there is no [execute] operation: the write-only control path is
    [write_control], which takes a 16-bit control subcommand, not a command
    envelope. Every chip error is an [I2CError], [PollTimeout] or
    [Checksum]; [write_control] issues exactly one three-byte write
    [CONTROL; lo; hi] and returns [Ok] or that write's transport error. *)
Theorem write_control_errors {St E : Type} (bus : Bus St E) (addr sub : Z)
    (w w' : World St E) (r : outcome E unit) :
  Lib.write_control bus addr sub w = (w', r) ->
  (forall e : ChipError E, (exists x, e = I2CError x) \/ e = PollTimeout \/ e = Checksum) /\
  exists res,
    log w' = log w ++ [EvWrite addr [commands.CONTROL; lo_byte sub; hi_byte sub] res] /\
    r = match res with None => Ok tt | Some e => Err (I2CError e) end.
Proof.
  intros H. split.
  - intros [x| |]; [left; exists x; reflexivity | right; left | right; right]; reflexivity.
  - exact (write_control_inv bus addr sub w w' r H).
Qed.

Lemma write_control_errors_witness :
  let run := Lib.write_control Sim.bus Sim.addr control_subcommands.SOFT_RESET
               (Sim.start Sim.clear_chip) in
  (forall e : ChipError Empty_set, (exists x, e = I2CError x) \/ e = PollTimeout \/ e = Checksum) /\
  exists res,
    log (fst run) = log (Sim.start Sim.clear_chip) ++
      [EvWrite Sim.addr [commands.CONTROL; lo_byte control_subcommands.SOFT_RESET;
                         hi_byte control_subcommands.SOFT_RESET] res] /\
    snd run = match res with None => Ok tt | Some e => Err (I2CError e) end.
Proof.
  intros run.
  exact (write_control_errors Sim.bus Sim.addr control_subcommands.SOFT_RESET
           (Sim.start Sim.clear_chip) (fst run) (snd run) (surjective_pairing run)).
Defined.

(** ** Writing the chemistry id *)

(** C10 (counterexample): on a chip that never raises CFGUPMODE,
    [write_chem_id Unknown] does not panic: config-update mode entry runs
    first and its [PollTimeout] is returned. *)
Lemma write_chem_id_unknown_stuck :
  snd (Lib.write_chem_id Sim.stuck_bus Sim.addr ChemUnknown (Sim.start Sim.clear_chip)) =
    Err PollTimeout.
Proof. vm_compute. reflexivity. Qed.

(** C10: [write_chem_id] first enters config-update mode and returns its
    error if that fails, whatever the id. Once in config-update mode, with
    [Unknown] it panics with "cannot set unknown chem id!" (no soft reset
    follows); with A4350, B4200 or C4400 it writes the control subcommand
    CHEM_A, CHEM_B or CHEM_C and then performs the soft reset. *)
Theorem write_chem_id_steps {St E : Type} (bus : Bus St E) (addr : Z) (id : ChemId)
    (w w1 : World St E) (r1 : outcome E unit) :
  Lib.mode_cfgupdate bus addr w = (w1, r1) ->
  (forall e, r1 = Err e -> Lib.write_chem_id bus addr id w = (w1, Err e)) /\
  (r1 = Ok tt ->
   Lib.write_chem_id bus addr id w =
     match id with
     | A4350 => (Lib.write_control bus addr control_subcommands.CHEM_A;; Lib.soft_reset bus addr) w1
     | B4200 => (Lib.write_control bus addr control_subcommands.CHEM_B;; Lib.soft_reset bus addr) w1
     | C4400 => (Lib.write_control bus addr control_subcommands.CHEM_C;; Lib.soft_reset bus addr) w1
     | ChemUnknown => (w1, Panic "cannot set unknown chem id!")
     end).
Proof.
  intros Hm. unfold Lib.write_chem_id. split.
  - intros e He. unfold bind at 1. rewrite Hm, He. reflexivity.
  - intros Hok. unfold bind at 1. rewrite Hm, Hok. destruct id; reflexivity.
Qed.

Lemma write_chem_id_steps_witness :
  let m := Lib.mode_cfgupdate Sim.bus Sim.addr (Sim.start Sim.clear_chip) in
  (forall e, snd m = Err e ->
     Lib.write_chem_id Sim.bus Sim.addr B4200 (Sim.start Sim.clear_chip) = (fst m, Err e)) /\
  (snd m = Ok tt ->
   Lib.write_chem_id Sim.bus Sim.addr B4200 (Sim.start Sim.clear_chip) =
     (Lib.write_control Sim.bus Sim.addr control_subcommands.CHEM_B;; Lib.soft_reset Sim.bus Sim.addr)
       (fst m)).
Proof.
  intros m.
  exact (write_chem_id_steps Sim.bus Sim.addr B4200 (Sim.start Sim.clear_chip) (fst m) (snd m)
           (surjective_pairing m)).
Defined.

(** ** Further properties of the driver *)

Lemma lo_byte_mod (x : Z) : lo_byte x = x mod 256.
Proof. unfold lo_byte. change 255 with (Z.ones 8). rewrite Z.land_ones by lia. reflexivity. Qed.

Lemma hi_byte_mod (x : Z) : hi_byte x = (x / 256) mod 256.
Proof.
  unfold hi_byte. change 255 with (Z.ones 8). rewrite Z.land_ones by lia.
  rewrite Z.shiftr_div_pow2 by lia. reflexivity.
Qed.

(** The two bytes [subcommand as u8] and [(subcommand >> 8) as u8] of a
    control request are bytes, and [u16::from_le_bytes] of them gives the
    subcommand back: the request encoding of [read_control] and
    [write_control] loses nothing for a [u16]. *)
Theorem control_request_roundtrip (x : Z) :
  0 <= x < 65536 ->
  0 <= lo_byte x < 256 /\ 0 <= hi_byte x < 256 /\ from_le_bytes [lo_byte x; hi_byte x] = x.
Proof.
  intros Hx. rewrite lo_byte_mod, hi_byte_mod. unfold from_le_bytes. cbn [nth].
  rewrite (Z.mod_small (x / 256)) by (split; [apply Z.div_pos | apply Z.div_lt_upper_bound]; lia).
  split; [apply Z.mod_pos_bound; lia|].
  split; [split; [apply Z.div_pos | apply Z.div_lt_upper_bound]; lia|].
  pose proof (Z.div_mod x 256). lia.
Qed.

Lemma control_request_roundtrip_witness :
  0 <= lo_byte 0x0427 < 256 /\ 0 <= hi_byte 0x0427 < 256 /\
  from_le_bytes [lo_byte 0x0427; hi_byte 0x0427] = 0x0427.
Proof. apply control_request_roundtrip. lia. Defined.

Section Readers.
Context {St E : Type} (bus : Bus St E) (addr : Z).

Lemma read_command_inv cmd w w' r :
  Lib.read_command bus addr cmd w = (w', r) ->
  exists res, log w' = log w ++ [EvWriteRead addr [cmd] 2 res] /\
    r = match res with inl resp => Ok (from_le_bytes resp) | inr e => Err (I2CError e) end.
Proof.
  unfold Lib.read_command. intros H. inv_bind H H1.
  - apply i2c_write_read_inv in H1 as [[resp|e'] [Hl Hr]]; inversion Hr; subst.
    inversion H; subst. exists (inl resp). auto.
  - apply i2c_write_read_inv in H1 as [[resp|e'] [Hl Hr']]; inversion Hr'; subst.
    exists (inr e'). auto.
  - apply i2c_write_read_inv in H1 as [[resp|e'] [Hl Hr']]; inversion Hr'.
Qed.

Lemma from_le_bytes_range (resp : list Z) :
  Forall (fun b => 0 <= b < 256) resp -> 0 <= from_le_bytes resp < 65536.
Proof.
  intros H. unfold from_le_bytes.
  destruct resp as [|b0 [|b1 t]]; cbn [nth]; try lia.
  - inversion H; lia.
  - inversion H as [|? ? H0 H']; inversion H'; lia.
Qed.

End Readers.

(** [state_of_charge], [voltage] and [temperature] each issue exactly one
    bus transaction, a 2-byte read of their register (0x1C, 0x04, 0x02);
    they return the transport's error, or the two bytes read as a
    little-endian [u16], which lies in [0, 65535] when the transport
    returns bytes. *)
Theorem simple_register_readers {St E : Type} (bus : Bus St E) (addr reg : Z)
    (f : M St E Z) (w w' : World St E) (r : outcome E Z) :
  In (reg, f) [(commands.STATE_OF_CHARGE, Lib.state_of_charge bus addr);
               (commands.VOLTAGE, Lib.voltage bus addr);
               (commands.TEMPERATURE, Lib.temperature bus addr)] ->
  f w = (w', r) ->
  exists res, log w' = log w ++ [EvWriteRead addr [reg] 2 res] /\
    match res with
    | inl resp =>
        r = Ok (nth 0 resp 0 + 256 * nth 1 resp 0) /\
        (Forall (fun b => 0 <= b < 256) resp -> 0 <= nth 0 resp 0 + 256 * nth 1 resp 0 < 65536)
    | inr e => r = Err (I2CError e)
    end.
Proof.
  intros Hin Hf.
  assert (Hrc : Lib.read_command bus addr reg w = (w', r)).
  { simpl in Hin. destruct Hin as [Hin | [Hin | [Hin | []]]]; inversion Hin; subst; exact Hf. }
  apply read_command_inv in Hrc as [res [Hl Hr]]. exists res. split; [exact Hl|].
  destruct res as [resp|e]; [|exact Hr].
  split; [exact Hr|]. apply from_le_bytes_range.
Qed.

Lemma simple_register_readers_witness :
  let run := Lib.voltage Sim.bus Sim.addr (Sim.start Sim.clear_chip) in
  exists res, log (fst run) = log (Sim.start Sim.clear_chip) ++ [EvWriteRead Sim.addr [commands.VOLTAGE] 2 res] /\
    match res with
    | inl resp =>
        snd run = Ok (nth 0 resp 0 + 256 * nth 1 resp 0) /\
        (Forall (fun b => 0 <= b < 256) resp -> 0 <= nth 0 resp 0 + 256 * nth 1 resp 0 < 65536)
    | inr e => snd run = Err (I2CError e)
    end.
Proof.
  intros run.
  apply (simple_register_readers Sim.bus Sim.addr commands.VOLTAGE (Lib.voltage Sim.bus Sim.addr)
           (Sim.start Sim.clear_chip) (fst run) (snd run)).
  - simpl. right. left. reflexivity.
  - apply surjective_pairing.
Defined.

(** [average_current] reads the 2 bytes of register 0x10 and reinterprets
    the little-endian [u16] as an [i16]: for bytes [lo] and [hi] the result
    [v] lies in [-32768, 32767], is congruent to [lo + 256 * hi] modulo
    65536, and is negative exactly when [hi >= 128]. A transport error is
    returned as is. *)
Theorem average_current_signed {St E : Type} (bus : Bus St E) (addr : Z)
    (w w' : World St E) (r : outcome E Z) :
  Lib.average_current bus addr w = (w', r) ->
  exists res, log w' = log w ++ [EvWriteRead addr [commands.AVERAGE_CURRENT] 2 res] /\
    match res with
    | inl resp =>
        forall lo hi, resp = [lo; hi] -> 0 <= lo < 256 -> 0 <= hi < 256 ->
        exists v, r = Ok v /\ -32768 <= v < 32768 /\ v mod 65536 = lo + 256 * hi /\
          (v < 0 <-> 128 <= hi)
    | inr e => r = Err (I2CError e)
    end.
Proof.
  unfold Lib.average_current. intros H. inv_bind H H1.
  - apply read_command_inv in H1 as [[resp|e'] [Hl Hr]]; inversion Hr; subst.
    inversion H; subst. exists (inl resp). split; [exact Hl|].
    intros lo hi -> Hlo Hhi. eexists. split; [reflexivity|].
    unfold as_i16, from_le_bytes. cbn [nth].
    destruct (Z.ltb_spec (lo + 256 * hi) 32768).
    + rewrite Z.mod_small by lia. lia.
    + replace (lo + 256 * hi - 65536) with (lo + 256 * hi + (-1) * 65536) by lia.
      rewrite Z.mod_add, Z.mod_small by lia. lia.
  - apply read_command_inv in H1 as [[resp|e'] [Hl Hr']]; inversion Hr'; subst.
    exists (inr e'). auto.
  - apply read_command_inv in H1 as [[resp|e'] [Hl Hr']]; inversion Hr'.
Qed.

Lemma average_current_signed_witness :
  let run := Lib.average_current Sim.bus Sim.addr (Sim.start Sim.clear_chip) in
  exists res, log (fst run) = log (Sim.start Sim.clear_chip) ++
      [EvWriteRead Sim.addr [commands.AVERAGE_CURRENT] 2 res] /\
    match res with
    | inl resp =>
        forall lo hi, resp = [lo; hi] -> 0 <= lo < 256 -> 0 <= hi < 256 ->
        exists v, snd run = Ok v /\ -32768 <= v < 32768 /\ v mod 65536 = lo + 256 * hi /\
          (v < 0 <-> 128 <= hi)
    | inr e => snd run = Err (I2CError e)
    end.
Proof.
  intros run.
  exact (average_current_signed Sim.bus Sim.addr (Sim.start Sim.clear_chip) (fst run) (snd run)
           (surjective_pairing run)).
Defined.

(** [read_control] (behind [fw_version], [read_chem_id] and [probe])
    first writes the 3-byte request [CONTROL; lo; hi] of the subcommand;
    if that write fails it stops with the transport error. Otherwise it
    issues one 2-byte read of register CONTROL and returns the transport's
    error or the two bytes as a little-endian [u16]. *)
Theorem read_control_steps {St E : Type} (bus : Bus St E) (addr sub : Z)
    (w w' : World St E) (r : outcome E Z) :
  Lib.read_control bus addr sub w = (w', r) ->
  (exists e, log w' = log w ++ [EvWrite addr [commands.CONTROL; lo_byte sub; hi_byte sub] (Some e)] /\
             r = Err (I2CError e)) \/
  (exists res, log w' = log w ++ [EvWrite addr [commands.CONTROL; lo_byte sub; hi_byte sub] None;
                                 EvWriteRead addr [commands.CONTROL] 2 res] /\
     r = match res with inl resp => Ok (from_le_bytes resp) | inr e => Err (I2CError e) end).
Proof.
  unfold Lib.read_control. intros H. inv_bind H H1.
  - apply i2c_write_inv in H1 as [[e'|] [Hl1 Hr1]]; inversion Hr1; subst.
    right. inv_bind H H2.
    + apply i2c_write_read_inv in H2 as [[resp|e'] [Hl2 Hr2]]; inversion Hr2; subst.
      inversion H; subst. exists (inl resp). rewrite Hl2, Hl1, <- app_assoc. auto.
    + apply i2c_write_read_inv in H2 as [[resp|e'] [Hl2 Hr2]]; inversion Hr2; subst.
      exists (inr e'). rewrite Hl2, Hl1, <- app_assoc. auto.
    + apply i2c_write_read_inv in H2 as [[resp|e'] [Hl2 Hr2]]; inversion Hr2.
  - apply i2c_write_inv in H1 as [[e'|] [Hl1 Hr1]]; inversion Hr1; subst.
    left. exists e'. auto.
  - apply i2c_write_inv in H1 as [[e'|] [Hl1 Hr1]]; inversion Hr1.
Qed.

Lemma read_control_steps_witness :
  let run := Lib.fw_version Sim.bus Sim.addr (Sim.start Sim.clear_chip) in
  (exists e, log (fst run) = log (Sim.start Sim.clear_chip) ++
       [EvWrite Sim.addr [commands.CONTROL; lo_byte control_subcommands.FW_VERSION;
                          hi_byte control_subcommands.FW_VERSION] (Some e)] /\
     snd run = Err (I2CError e)) \/
  (exists res, log (fst run) = log (Sim.start Sim.clear_chip) ++
       [EvWrite Sim.addr [commands.CONTROL; lo_byte control_subcommands.FW_VERSION;
                          hi_byte control_subcommands.FW_VERSION] None;
        EvWriteRead Sim.addr [commands.CONTROL] 2 res] /\
     snd run = match res with inl resp => Ok (from_le_bytes resp) | inr e => Err (I2CError e) end).
Proof.
  intros run.
  exact (read_control_steps Sim.bus Sim.addr control_subcommands.FW_VERSION
           (Sim.start Sim.clear_chip) (fst run) (snd run) (surjective_pairing run)).
Defined.


(** The read-only operations ([read_command], [read_control], [get_flags],
    [state_of_charge], [voltage], [average_current], [temperature],
    [fw_version], [read_chem_id]) never panic and fail only with a
    transport error: never [PollTimeout] nor [Checksum]. *)
Theorem readers_fail_only_on_transport {St E : Type} (bus : Bus St E) (addr : Z) :
  (forall cmd, errs_in is_transport (Lib.read_command bus addr cmd)) /\
  (forall sub, errs_in is_transport (Lib.read_control bus addr sub)) /\
  errs_in is_transport (Lib.get_flags bus addr) /\
  errs_in is_transport (Lib.state_of_charge bus addr) /\
  errs_in is_transport (Lib.voltage bus addr) /\
  errs_in is_transport (Lib.average_current bus addr) /\
  errs_in is_transport (Lib.temperature bus addr) /\
  errs_in is_transport (Lib.fw_version bus addr) /\
  errs_in is_transport (Lib.read_chem_id bus addr).
Proof.
  unfold Lib.get_flags, Lib.state_of_charge, Lib.voltage, Lib.average_current,
    Lib.temperature, Lib.fw_version, Lib.read_chem_id, Lib.read_control, Lib.read_command.
  repeat split; intros; repeat (apply errs_in_bind; intros); auto with driver.
Qed.

(** A block together with its checksum byte sums to 255 modulo 256, and
    the checksum is a byte: this is the relation the gauge checks. *)
Theorem block_checksum_complement (blk : list Z) :
  0 <= Lib.calculate_block_checksum blk < 256 /\
  (sum_bytes blk + Lib.calculate_block_checksum blk) mod 256 = 255 /\
  Memory.checksum (Memory.mkMemoryBlock blk) = Lib.calculate_block_checksum blk.
Proof.
  assert (Hmem : Memory.checksum (Memory.mkMemoryBlock blk) = Lib.calculate_block_checksum blk)
    by reflexivity.
  rewrite Hmem. unfold Lib.calculate_block_checksum. rewrite fold_wrapping_add by lia.
  rewrite Z.add_0_l.
  pose proof (Z.mod_pos_bound (sum_bytes blk) 256 ltac:(lia)).
  split; [lia|]. split; [|reflexivity].
  replace (sum_bytes blk + (255 - sum_bytes blk mod 256))
    with (255 + (sum_bytes blk / 256) * 256) by (pose proof (Z.div_mod (sum_bytes blk) 256); lia).
  rewrite Z.mod_add by lia. reflexivity.
Qed.

(** Changing one byte of a block to a different byte value always changes
    its checksum: the checksum detects every single-byte corruption. *)
Theorem block_checksum_detects_byte_change (blk : list Z) (i : nat) (v : Z) :
  (i < List.length blk)%nat -> 0 <= v < 256 -> 0 <= nth i blk 0 < 256 -> v <> nth i blk 0 ->
  Lib.calculate_block_checksum (set_nth i v blk) <> Lib.calculate_block_checksum blk.
Proof.
  intros Hi Hv Ho Hne. unfold Lib.calculate_block_checksum.
  rewrite !fold_wrapping_add by lia. rewrite !Z.add_0_l, sum_bytes_set_nth by exact Hi.
  intros Heq.
  assert (Hm : (sum_bytes blk - nth i blk 0 + v) mod 256 = sum_bytes blk mod 256) by lia.
  pose proof (Z.div_mod (sum_bytes blk - nth i blk 0 + v) 256 ltac:(lia)).
  pose proof (Z.div_mod (sum_bytes blk) 256 ltac:(lia)).
  set (q1 := (sum_bytes blk - nth i blk 0 + v) / 256) in *.
  set (q2 := sum_bytes blk / 256) in *.
  assert (v - nth i blk 0 = 256 * (q1 - q2)) by lia.
  destruct (Z.lt_total q1 q2) as [Hq | [Hq | Hq]]; nia.
Qed.

Lemma block_checksum_detects_byte_change_witness :
  Lib.calculate_block_checksum (set_nth 3 7 Sim.clear_block) <>
  Lib.calculate_block_checksum Sim.clear_block.
Proof.
  apply block_checksum_detects_byte_change; [simpl; lia | lia | simpl; lia | simpl; lia].
Defined.

Ltac crunch_bus :=
  cbv [commands.CONTROL commands.FLAGS commands.DATA_CLASS commands.DATA_BLOCK
       commands.BLOCK_DATA commands.BLOCK_DATA_CHECKSUM commands.BLOCK_DATA_CONTROL
       Memory.def.DATA_CLASS Memory.def.DATA_BLOCK Memory.def.BLOCK_DATA_START
       Memory.def.BLOCK_DATA_CHECKSUM Memory.def.BLOCK_DATA_CONTROL] in *;
  repeat match goal with
  | |- context [bus_write ?b ?s ?a ?x] =>
      let o := fresh "o" in destruct (bus_write b s a x) as [? [o|]]
  | |- context [bus_write_read ?b ?s ?a ?x ?n] =>
      let o := fresh "o" in destruct (bus_write_read b s a x n) as [? [o|o]]
  | |- context [if ?c then _ else _] => destruct c
  end.

Section Versions.
Context {St E : Type} (bus : Bus St E) (addr : Z).

Lemma memblock_read_same_steps class block w :
  Memory.memblock_read bus addr class block w =
    (fst (Lib.memblock_read bus addr class block (List.repeat 0 MEMBLOCK_SIZE) w),
     match snd (Lib.memblock_read bus addr class block (List.repeat 0 MEMBLOCK_SIZE) w) with
     | Ok data => Ok (Memory.mkMemoryBlock data)
     | Err e => Err e
     | Panic m => Panic m
     end).
Proof.
  unfold Memory.memblock_read, Lib.memblock_read, Memory.memblock_prepare_op,
    Lib.memblock_prepare_op, Lib.write_command, Memory.read_checksum, Lib.read_checksum,
    i2c_write, i2c_write_read, delay_ms, bind, ret, fail.
  cbn [fst snd chip log List.length Memory.raw Memory.new List.repeat MEMBLOCK_SIZE].
  cbv [Memory.checksum Lib.calculate_block_checksum Memory.raw].
  crunch_bus; reflexivity.
Qed.

End Versions.

Lemma skipn_log_app {E} (l m : list (event E)) : skipn (List.length l) (l ++ m) = m.
Proof. induction l as [|x l IH]; simpl; auto. Qed.

Ltac new_events :=
  cbn [fst snd log chip];
  repeat rewrite <- app_assoc;
  rewrite skipn_log_app.

(** A block read, in either version ([memblock_read] of lib.rs and of
    memory.rs), never writes configuration memory: the only writes it
    issues, on every path, are a prefix of the three window-selector writes
    [BLOCK_DATA_CONTROL := 0], [DATA_CLASS := class], [DATA_BLOCK := block]. *)
Theorem block_read_writes_only_selectors {St E : Type} (bus : Bus St E) (addr class block : Z)
    (w : World St E) :
  (exists n, bus_writes (skipn (List.length (log w))
      (log (fst (Lib.memblock_read bus addr class block (List.repeat 0 MEMBLOCK_SIZE) w)))) =
    firstn n [[0x61; 0]; [0x3E; class]; [0x3F; block]]) /\
  (exists n, bus_writes (skipn (List.length (log w))
      (log (fst (Memory.memblock_read bus addr class block w)))) =
    firstn n [[0x61; 0]; [0x3E; class]; [0x3F; block]]).
Proof.
  rewrite memblock_read_same_steps. cbn [fst].
  assert (H : exists n, bus_writes (skipn (List.length (log w))
      (log (fst (Lib.memblock_read bus addr class block (List.repeat 0 MEMBLOCK_SIZE) w)))) =
    firstn n [[0x61; 0]; [0x3E; class]; [0x3F; block]]).
  { unfold Lib.memblock_read, Lib.memblock_prepare_op, Lib.write_command, Lib.read_checksum,
      i2c_write, i2c_write_read, delay_ms, bind, ret, fail.
    crunch_bus; new_events;
      first [exists 0%nat; reflexivity | exists 1%nat; reflexivity
            | exists 2%nat; reflexivity | exists 3%nat; reflexivity]. }
  split; exact H.
Qed.

Section Appends.
Context {St E : Type} (bus : Bus St E) (addr : Z).

Lemma appends_ret {A} (a : A) : @appends St E A (ret a).
Proof. intros w w' r H. inversion H; subst. exists []. rewrite app_nil_r. reflexivity. Qed.

Lemma appends_fail {A} (e : ChipError E) : @appends St E A (fail e).
Proof. intros w w' r H. inversion H; subst. exists []. rewrite app_nil_r. reflexivity. Qed.

Lemma appends_bind {A B} (m : M St E A) (k : A -> M St E B) :
  appends m -> (forall a, appends (k a)) -> appends (bind m k).
Proof.
  intros Hm Hk w w' r H. inv_bind H H1.
  - destruct (Hm _ _ _ H1) as [l1 E1]. destruct (Hk _ _ _ _ H) as [l2 E2].
    exists (l1 ++ l2). rewrite E2, E1, app_assoc. reflexivity.
  - exact (Hm _ _ _ H1).
  - exact (Hm _ _ _ H1).
Qed.

Lemma appends_i2c_write bytes : appends (i2c_write bus addr bytes).
Proof. intros w w' r H. apply i2c_write_inv in H as [res [Hl _]]. eauto. Qed.

Lemma appends_i2c_write_read bytes n : appends (i2c_write_read bus addr bytes n).
Proof. intros w w' r H. apply i2c_write_read_inv in H as [res [Hl _]]. eauto. Qed.

Lemma appends_delay_ms ms : appends (delay_ms bus ms).
Proof. intros w w' r H. apply delay_ms_inv in H as [Hl _]. eauto. Qed.

Hint Resolve appends_ret appends_fail appends_bind appends_i2c_write
  appends_i2c_write_read appends_delay_ms : driver.

Lemma appends_wait_flags_loop n mask : appends (Lib.wait_flags_loop bus addr n mask).
Proof.
  induction n as [|n IH]; cbn [Lib.wait_flags_loop]; [auto with driver|].
  unfold Lib.get_flags, Lib.read_command.
  repeat (apply appends_bind; intros); auto with driver.
  destruct (StatusFlags.contains _ _); auto with driver.
Qed.

Lemma appends_mode_cfgupdate : appends (Lib.mode_cfgupdate bus addr).
Proof.
  unfold Lib.mode_cfgupdate, Lib.write_control.
  apply appends_bind; [apply appends_bind; auto with driver | intros].
  apply appends_bind; [apply appends_wait_flags_loop | intros; apply appends_ret].
Qed.

Lemma appends_soft_reset : appends (Lib.soft_reset bus addr).
Proof. unfold Lib.soft_reset, Lib.write_control. auto with driver. Qed.

Lemma appends_Memory_read_checksum : appends (Memory.read_checksum bus addr).
Proof. unfold Memory.read_checksum. auto with driver. Qed.

End Appends.

(** The direct errata fix of known_chips.rs is gated: when the window
    selection succeeded and the one-byte read of the sign byte (register
    0x45) returned a byte whose bit 7 is clear, nothing follows that read
    (no checksum read, no mode change, no write) and the fix returns
    [Ok]. *)
Theorem check_fix_gated {St E : Type} (bus : Bus St E) (addr : Z) (w w' : World St E)
    (r : outcome E unit) (resp : list Z) (rest : list (event E)) :
  KnownChips.check_fix_bq27427_errata bus addr w = (w', r) ->
  log w' = log w ++ prepare_events addr memory_subclass.CC_CAL 0 ++
           EvWriteRead addr [KnownChips.SIGN_BYTE_OFFSET] 1 (inl resp) :: rest ->
  Z.land (nth 0 resp 0) KnownChips.SIGN_BIT = 0 ->
  rest = [] /\ r = Ok tt.
Proof.
  intros H Hlog Hbit. unfold KnownChips.check_fix_bq27427_errata in H.
  inv_bind H H1.
  - destruct a. apply (Memory_prepare_ok bus addr) in H1. inv_bind H H2.
    + apply i2c_write_read_inv in H2 as [[buf|e'] [Hl2 Hr2]]; inversion Hr2; subst.
      assert (Ha : appends (bind (if Z.land (nth 0 buf 0) KnownChips.SIGN_BIT >? 0
                                  then (checksum <- Memory.read_checksum bus addr;;
                                        Lib.mode_cfgupdate bus addr;;
                                        i2c_write bus addr [KnownChips.SIGN_BYTE_OFFSET;
                                                            Z.lxor (nth 0 buf 0) KnownChips.SIGN_BIT];;
                                        i2c_write bus addr [Memory.def.BLOCK_DATA_CHECKSUM;
                                                            Z.lxor checksum KnownChips.SIGN_BIT];;
                                        Lib.soft_reset bus addr)
                                  else ret tt) (fun _ => ret tt))).
      { apply appends_bind; [|intros; apply appends_ret].
        destruct (_ >? 0).
        - apply appends_bind; [apply appends_Memory_read_checksum | intros].
          apply appends_bind; [apply appends_mode_cfgupdate | intros].
          apply appends_bind; [apply appends_i2c_write | intros].
          apply appends_bind; [apply appends_i2c_write | intros].
          apply appends_soft_reset.
        - apply appends_ret. }
      destruct (Ha _ _ _ H) as [l El].
      rewrite El, Hl2, H1, <- !app_assoc in Hlog.
      apply app_inv_head in Hlog. apply app_inv_head in Hlog. cbn [app] in Hlog.
      inversion Hlog; subst.
      rewrite Hbit in H. cbn in H. inversion H; subst.
      split; [|reflexivity].
      apply (f_equal (@List.length _)) in El. rewrite length_app in El.
      destruct rest; [reflexivity | simpl in El; lia].
    + apply i2c_write_read_inv in H2 as [[buf|e'] [Hl2 Hr2]]; inversion Hr2; subst.
      rewrite Hl2, H1, <- app_assoc in Hlog.
      apply app_inv_head in Hlog. apply app_inv_head in Hlog. discriminate.
    + apply i2c_write_read_inv in H2 as [[buf|e'] [Hl2 Hr2]]; inversion Hr2.
  - revert H1 Hlog. unfold Memory.memblock_prepare_op, i2c_write, delay_ms, bind, ret.
    crunch_bus; intros H1 Hlog; inversion H1; subst; cbn [log] in Hlog;
      repeat rewrite <- app_assoc in Hlog; apply app_inv_head in Hlog; discriminate.
  - revert H1 Hlog. unfold Memory.memblock_prepare_op, i2c_write, delay_ms, bind, ret.
    crunch_bus; intros H1 Hlog; inversion H1.
Qed.

Lemma check_fix_gated_witness :
  let run := KnownChips.check_fix_bq27427_errata Sim.bus Sim.addr (Sim.start Sim.clear_chip) in
  @nil (event Empty_set) = [] /\ snd run = Ok tt.
Proof.
  intros run.
  apply (check_fix_gated Sim.bus Sim.addr (Sim.start Sim.clear_chip) (fst run) (snd run) [0] []).
  - apply surjective_pairing.
  - vm_compute. reflexivity.
  - reflexivity.
Defined.

Section SimRoundTrips.
Variable a : Z.

Lemma runs_Lib_memblock_read_at c b s :
  List.length (Sim.sim_data s) = 32%nat ->
  Sim.sim_checksum s = Lib.calculate_block_checksum (Sim.sim_data s) ->
  runs_to (Lib.memblock_read Sim.bus a c b (List.repeat 0 MEMBLOCK_SIZE)) s s (Sim.sim_data s).
Proof.
  intros Hlen Hcs. unfold Lib.memblock_read.
  eapply runs_bind; [apply runs_Lib_prepare|].
  eapply runs_bind; [apply runs_read_checksum|].
  apply runs_bind with (s1 := s) (v := firstn 32 (Sim.sim_data s)).
  { intros l. eexists. reflexivity. }
  cbv beta. rewrite firstn_all2 by lia.
  rewrite Hcs, Z.eqb_refl. apply runs_ret.
Qed.

Lemma runs_Memory_memblock_read_at c b s :
  List.length (Sim.sim_data s) = 32%nat ->
  Sim.sim_checksum s = Lib.calculate_block_checksum (Sim.sim_data s) ->
  runs_to (Memory.memblock_read Sim.bus a c b) s s (Memory.mkMemoryBlock (Sim.sim_data s)).
Proof.
  intros Hlen Hcs l. destruct (runs_Lib_memblock_read_at c b s Hlen Hcs l) as [l' E1].
  exists l'. rewrite memblock_read_same_steps, E1. reflexivity.
Qed.

Lemma runs_Lib_memblock_write_at c b s data :
  List.length (Sim.sim_data s) = 32%nat -> List.length data = 32%nat ->
  runs_to (Lib.memblock_write Sim.bus a c b data) s
    (Sim.with_control
       (Sim.with_checksum (set_data (Sim.with_control s 0x13) data)
          (Lib.calculate_block_checksum data)) 0x42) tt.
Proof.
  intros Hls Hld. unfold Lib.memblock_write. cbv beta zeta.
  eapply runs_bind; [apply runs_mode_cfgupdate|].
  eapply runs_bind; [apply runs_Lib_prepare|].
  apply runs_bind with (s1 := Sim.with_control s 0x13) (v := tt).
  { intros l. eexists. reflexivity. }
  eapply runs_bind.
  { apply (runs_write_block_bytes a data [] (Sim.sim_data s)); simpl; [reflexivity | lia | lia]. }
  apply runs_bind with (v := tt)
    (s1 := Sim.with_checksum (set_data (Sim.with_control s 0x13) data)
             (Lib.calculate_block_checksum data)).
  { intros l. eexists. reflexivity. }
  apply runs_bind with (v := tt)
    (s1 := Sim.with_checksum (set_data (Sim.with_control s 0x13) data)
             (Lib.calculate_block_checksum data)).
  { intros l. eexists. reflexivity. }
  eapply runs_bind; [apply runs_Lib_prepare|].
  eapply runs_bind; [apply runs_read_checksum|].
  eapply runs_bind; [apply runs_soft_reset|].
  cbn [Sim.sim_checksum Sim.with_checksum]. rewrite Z.eqb_refl. apply runs_ret.
Qed.

Lemma runs_write_raw_bytes bytes pre old s :
  Sim.sim_data s = pre ++ old -> List.length old = List.length bytes ->
  (List.length pre + List.length bytes <= 32)%nat ->
  runs_to (Memory.write_raw_bytes Sim.bus a (Z.of_nat (List.length pre)) bytes) s
          (set_data s (pre ++ bytes)) tt.
Proof.
  revert pre old s. induction bytes as [|b bytes IH]; intros pre old s Hd Hl Hb;
    cbn [Memory.write_raw_bytes].
  - destruct old; [|discriminate]. rewrite app_nil_r in *.
    destruct s; simpl in *; subst. apply runs_ret.
  - destruct old as [|x old]; [discriminate|]. simpl in Hl, Hb.
    apply runs_bind with (s1 := set_data s (pre ++ b :: old)) (v := tt).
    + intros l. eexists. unfold i2c_write.
      change (bus_write Sim.bus) with Sim.sim_write. change Memory.def.BLOCK_DATA_START with 0x40.
      cbn [chip]. rewrite sim_write_byte by lia. unfold Sim.with_byte. rewrite Nat2Z.id, Hd, set_nth_app.
      reflexivity.
    + replace (Z.of_nat (List.length pre) + 1) with (Z.of_nat (List.length (pre ++ [b])))
        by (rewrite length_app; simpl; lia).
      replace (pre ++ b :: bytes) with ((pre ++ [b]) ++ bytes) by (rewrite <- app_assoc; reflexivity).
      replace (set_data s ((pre ++ [b]) ++ bytes))
        with (set_data (set_data s (pre ++ b :: old)) ((pre ++ [b]) ++ bytes)) by reflexivity.
      apply IH with (old := old).
      * simpl. rewrite <- app_assoc. reflexivity.
      * lia.
      * rewrite length_app. simpl. lia.
Qed.

Lemma runs_Memory_memblock_write_at c b s data :
  List.length (Sim.sim_data s) = 32%nat -> List.length data = 32%nat ->
  runs_to (Memory.memblock_write Sim.bus a c b (Memory.mkMemoryBlock data)) s
    (Sim.with_control
       (Sim.with_checksum (set_data (Sim.with_control s 0x13) data)
          (Lib.calculate_block_checksum data)) 0x42) tt.
Proof.
  intros Hls Hld. unfold Memory.memblock_write. cbv beta zeta.
  eapply runs_bind; [apply runs_mode_cfgupdate|].
  eapply runs_bind; [apply runs_Memory_prepare|].
  eapply runs_bind.
  { apply (runs_write_raw_bytes data [] (Sim.sim_data (Sim.with_control s 0x13)));
      simpl; [reflexivity | lia | lia]. }
  apply runs_bind with (v := tt)
    (s1 := Sim.with_checksum (set_data (Sim.with_control s 0x13) data)
             (Lib.calculate_block_checksum data)).
  { intros l. eexists. reflexivity. }
  apply runs_bind with (v := tt)
    (s1 := Sim.with_checksum (set_data (Sim.with_control s 0x13) data)
             (Lib.calculate_block_checksum data)).
  { intros l. eexists. reflexivity. }
  eapply runs_bind; [apply runs_Memory_prepare|].
  apply runs_bind with (v := Lib.calculate_block_checksum data)
    (s1 := Sim.with_checksum (set_data (Sim.with_control s 0x13) data)
             (Lib.calculate_block_checksum data)).
  { intros l. eexists. reflexivity. }
  eapply runs_bind; [apply runs_soft_reset|].
  change (Memory.checksum (Memory.mkMemoryBlock data)) with (Lib.calculate_block_checksum data).
  rewrite Z.eqb_refl. apply runs_ret.
Qed.

End SimRoundTrips.

(** On the simulated gauge, a block written with [memblock_write] is read
    back unchanged by [memblock_read], in both versions (lib.rs and
    memory.rs): the write succeeds and the following read returns the same
    32 bytes. *)
Theorem memblock_write_read_roundtrip (s : Sim.SimChip) (class block : Z) (data : list Z) :
  List.length (Sim.sim_data s) = 32%nat -> List.length data = 32%nat ->
  let wl := Lib.memblock_write Sim.bus Sim.addr class block data (Sim.start s) in
  let wm := Memory.memblock_write Sim.bus Sim.addr class block (Memory.mkMemoryBlock data)
              (Sim.start s) in
  snd wl = Ok tt /\
  snd (Lib.memblock_read Sim.bus Sim.addr class block (List.repeat 0 MEMBLOCK_SIZE) (fst wl)) =
    Ok data /\
  snd wm = Ok tt /\
  snd (Memory.memblock_read Sim.bus Sim.addr class block (fst wm)) = Ok (Memory.mkMemoryBlock data).
Proof.
  intros Hls Hld wl wm.
  destruct (runs_Lib_memblock_write_at Sim.addr class block s data Hls Hld []) as [l1 E1].
  destruct (runs_Memory_memblock_write_at Sim.addr class block s data Hls Hld []) as [l2 E2].
  unfold wl, wm, Sim.start. rewrite E1, E2. cbn [fst snd].
  set (s' := Sim.with_control
               (Sim.with_checksum (set_data (Sim.with_control s 0x13) data)
                  (Lib.calculate_block_checksum data)) 0x42).
  assert (Hd : Sim.sim_data s' = data) by reflexivity.
  assert (Hc : Sim.sim_checksum s' = Lib.calculate_block_checksum (Sim.sim_data s'))
    by reflexivity.
  assert (Hl : List.length (Sim.sim_data s') = 32%nat) by (rewrite Hd; exact Hld).
  destruct (runs_Lib_memblock_read_at Sim.addr class block s' Hl Hc l1) as [l3 E3].
  destruct (runs_Memory_memblock_read_at Sim.addr class block s' Hl Hc l2) as [l4 E4].
  rewrite E3, E4, Hd. repeat split.
Qed.

Lemma memblock_write_read_roundtrip_witness :
  let wl := Lib.memblock_write Sim.bus Sim.addr memory_subclass.STATE 0 Sim.signed_block
              (Sim.start Sim.clear_chip) in
  let wm := Memory.memblock_write Sim.bus Sim.addr memory_subclass.STATE 0
              (Memory.mkMemoryBlock Sim.signed_block) (Sim.start Sim.clear_chip) in
  snd wl = Ok tt /\
  snd (Lib.memblock_read Sim.bus Sim.addr memory_subclass.STATE 0 (List.repeat 0 MEMBLOCK_SIZE)
         (fst wl)) = Ok Sim.signed_block /\
  snd wm = Ok tt /\
  snd (Memory.memblock_read Sim.bus Sim.addr memory_subclass.STATE 0 (fst wm)) =
    Ok (Memory.mkMemoryBlock Sim.signed_block).
Proof. apply memblock_write_read_roundtrip; reflexivity. Defined.

Lemma nth_set_nth_same (i : nat) (v : Z) (l : list Z) :
  (i < List.length l)%nat -> nth i (set_nth i v l) 0 = v.
Proof.
  revert i. induction l as [|h t IH]; intros [|i] Hi; simpl in *; try lia; auto.
  apply IH. lia.
Qed.

Lemma nth_set_nth_other (i j : nat) (v : Z) (l : list Z) :
  i <> j -> nth i (set_nth j v l) 0 = nth i l 0.
Proof.
  revert i j. induction l as [|h t IH]; intros [|i] [|j] Hij; simpl; auto; try lia.
Qed.

Lemma slice_6_8 (d : list Z) :
  (8 <= List.length d)%nat -> slice d 6 8 = [nth 6 d 0; nth 7 d 0].
Proof.
  intros H. unfold slice.
  do 8 (destruct d as [|? d]; [simpl in H; lia|]). reflexivity.
Qed.

Lemma read_write_u16_be (d : list Z) (cap : Z) :
  (8 <= List.length d)%nat -> 0 <= cap < 65536 ->
  read_u16_be (slice (write_u16_be_at 6 cap d) 6 8) = cap.
Proof.
  intros Hl Hc. unfold write_u16_be_at.
  rewrite slice_6_8 by (rewrite !length_set_nth; exact Hl).
  unfold read_u16_be. cbn [nth].
  rewrite nth_set_nth_same by (rewrite length_set_nth; lia).
  rewrite nth_set_nth_other by lia. rewrite nth_set_nth_same by lia.
  rewrite lo_byte_mod, hi_byte_mod.
  rewrite (Z.mod_small (cap / 256)) by (split; [apply Z.div_pos | apply Z.div_lt_upper_bound]; lia).
  pose proof (Z.div_mod cap 256). lia.
Qed.

(** On the simulated gauge holding a valid 32-byte block, setting the
    programmed capacity to a [u16] [cap] succeeds, reading it back gives
    [cap], and every byte of the block other than bytes 6 and 7 (where the
    capacity is stored big-endian) is left as it was. *)
Theorem programmed_capacity_roundtrip (s : Sim.SimChip) (cap : Z) :
  List.length (Sim.sim_data s) = 32%nat ->
  Sim.sim_checksum s = Lib.calculate_block_checksum (Sim.sim_data s) ->
  0 <= cap < 65536 ->
  let w1 := Lib.set_programmed_capacity Sim.bus Sim.addr cap (Sim.start s) in
  snd w1 = Ok tt /\
  snd (Lib.get_programmed_capacity Sim.bus Sim.addr (fst w1)) = Ok cap /\
  (forall i, i <> 6%nat -> i <> 7%nat ->
     nth i (Sim.sim_data (chip (fst w1))) 0 = nth i (Sim.sim_data s) 0).
Proof.
  intros Hls Hcs Hcap w1.
  set (d := write_u16_be_at 6 cap (Sim.sim_data s)).
  assert (Hld : List.length d = 32%nat) by (unfold d, write_u16_be_at; rewrite !length_set_nth; exact Hls).
  assert (Hrun : runs_to (Lib.set_programmed_capacity Sim.bus Sim.addr cap) s
                   (Sim.with_control
                      (Sim.with_checksum (set_data (Sim.with_control s 0x13) d)
                         (Lib.calculate_block_checksum d)) 0x42) tt).
  { unfold Lib.set_programmed_capacity.
    eapply runs_bind; [apply runs_Lib_memblock_read_at; assumption|].
    cbv beta zeta. apply runs_Lib_memblock_write_at; assumption. }
  destruct (Hrun []) as [l1 E1]. unfold w1, Sim.start. rewrite E1. cbn [fst snd chip].
  set (s' := Sim.with_control
               (Sim.with_checksum (set_data (Sim.with_control s 0x13) d)
                  (Lib.calculate_block_checksum d)) 0x42).
  assert (Hd : Sim.sim_data s' = d) by reflexivity.
  assert (Hc : Sim.sim_checksum s' = Lib.calculate_block_checksum (Sim.sim_data s'))
    by reflexivity.
  assert (Hl : List.length (Sim.sim_data s') = 32%nat) by (rewrite Hd; exact Hld).
  split; [reflexivity|]. split.
  - assert (Hget : runs_to (Lib.get_programmed_capacity Sim.bus Sim.addr) s' s' cap).
    { unfold Lib.get_programmed_capacity.
      eapply runs_bind; [apply runs_Lib_memblock_read_at; assumption|].
      cbv beta. rewrite Hd. unfold d. rewrite read_write_u16_be by lia. apply runs_ret. }
    destruct (Hget l1) as [l2 E2]. rewrite E2. reflexivity.
  - intros i Hi6 Hi7. rewrite Hd. unfold d, write_u16_be_at.
    rewrite !nth_set_nth_other by lia. reflexivity.
Qed.

Lemma programmed_capacity_roundtrip_witness :
  let w1 := Lib.set_programmed_capacity Sim.bus Sim.addr 2000 (Sim.start Sim.signed_chip) in
  snd w1 = Ok tt /\
  snd (Lib.get_programmed_capacity Sim.bus Sim.addr (fst w1)) = Ok 2000 /\
  (forall i, i <> 6%nat -> i <> 7%nat ->
     nth i (Sim.sim_data (chip (fst w1))) 0 = nth i (Sim.sim_data Sim.signed_chip) 0).
Proof. apply programmed_capacity_roundtrip; [reflexivity | reflexivity | lia]. Defined.

(** On the simulated gauge holding a valid CC_CAL block whose byte 5 has
    bit 7 clear, the errata patcher of lib.rs rewrites the block unchanged:
    it succeeds, the block bytes and the checksum are the ones it found,
    and the chip is left out of config-update mode. *)
Theorem errata_clear_bit_keeps_block (s : Sim.SimChip) :
  List.length (Sim.sim_data s) = 32%nat ->
  Sim.sim_checksum s = Lib.calculate_block_checksum (Sim.sim_data s) ->
  Z.land (nth 5 (Sim.sim_data s) 0) 0x80 = 0 ->
  let run := Lib.check_bq27427_errata Sim.bus Sim.addr (Sim.start s) in
  snd run = Ok tt /\
  Sim.sim_data (chip (fst run)) = Sim.sim_data s /\
  Sim.sim_checksum (chip (fst run)) = Sim.sim_checksum s /\
  Sim.sim_cfgup (chip (fst run)) = false.
Proof.
  intros Hlen Hcs Hbit run.
  assert (Hrun : runs_to (Lib.check_bq27427_errata Sim.bus Sim.addr) s
                   (Sim.with_control
                      (Sim.with_checksum (set_data (Sim.with_control s 0x13) (Sim.sim_data s))
                         (Lib.calculate_block_checksum (Sim.sim_data s))) 0x42) tt).
  { unfold Lib.check_bq27427_errata.
    eapply runs_bind; [apply runs_Lib_memblock_read_at; assumption|].
    cbv beta zeta. rewrite Hbit. cbn [Z.eqb negb].
    eapply runs_bind; [|apply runs_ret].
    apply runs_Lib_memblock_write_at; assumption. }
  destruct (Hrun []) as [l E1]. unfold run, Sim.start. rewrite E1. cbn [fst snd chip].
  rewrite Hcs. repeat split.
Qed.

Lemma errata_clear_bit_keeps_block_witness :
  let run := Lib.check_bq27427_errata Sim.bus Sim.addr (Sim.start Sim.clear_chip) in
  snd run = Ok tt /\
  Sim.sim_data (chip (fst run)) = Sim.sim_data Sim.clear_chip /\
  Sim.sim_checksum (chip (fst run)) = Sim.sim_checksum Sim.clear_chip /\
  Sim.sim_cfgup (chip (fst run)) = false.
Proof. apply errata_clear_bit_keeps_block; reflexivity. Defined.

(** The block read of memory.rs behaves as the one of lib.rs on every
    transport: the same bus transactions in the same order, the same
    errors, and on success the same 32 bytes, wrapped in a [MemoryBlock]. *)
Theorem memblock_read_versions_agree {St E : Type} (bus : Bus St E) (addr class block : Z)
    (w : World St E) :
  Memory.memblock_read bus addr class block w =
    (fst (Lib.memblock_read bus addr class block (List.repeat 0 MEMBLOCK_SIZE) w),
     match snd (Lib.memblock_read bus addr class block (List.repeat 0 MEMBLOCK_SIZE) w) with
     | Ok data => Ok (Memory.mkMemoryBlock data)
     | Err e => Err e
     | Panic m => Panic m
     end).
Proof. exact (memblock_read_same_steps bus addr class block w). Qed.
